(** * Locafy front end: session handling, HTTP client, reply counting, map picker

    A shallow embedding of the client-side logic of the Locafy web
    application, and the properties its specification states about it.

    Part I holds the definitions, one module per source unit:
    - [Replies]: [countTotalReplies] of [components/BusinessProfile.tsx];
    - [MapPicker]: [isWithinBounds] and the event handlers of the
      bounds-restricted [SimpleMapPicker];
    - [Jwt]: [getTokenExpiration] and [isTokenExpiringSoon], which the
      authentication context and the HTTP client both define, text for text;
    - [Browser]: [localStorage], [window.location] and the network;
    - [ApiService]: the request and response interceptors of the axios
      client;
    - [AuthProvider]: [login], [logout], [setAuthData] and [refreshUser] of
      the authentication context.

    Part II holds the theorems.

    JavaScript numbers are binary64 floats and are modelled by Rocq's
    primitive floats; [localStorage] is a finite map from strings to
    strings; a promise is modelled by its outcome. *)

From Stdlib Require Import Floats.PrimFloat.
From Stdlib Require Import Ascii String.
From stdpp Require Import base option list gmap strings.

Set Warnings "-inexact-float,-register-all".
Set Default Proof Using "Type".

(* ================================================================== *)
(** * Part I: definitions *)
(* ================================================================== *)

(** ** JavaScript truthiness *)

(** A string is truthy unless it is empty. *)
Definition truthy_string (s : string) : bool :=
  match s with
  | EmptyString => false
  | String _ _ => true
  end.

(** A value that may be [null] or [undefined] ([None]) and is a string
    otherwise: the result of [localStorage.getItem], an optional field. *)
Definition truthy (o : option string) : bool :=
  match o with
  | Some s => truthy_string s
  | None => false
  end.

(** A number is truthy unless it is [0], [-0] or [NaN]. *)
Definition truthy_number (x : float) : bool :=
  negb (is_zero x || is_nan x).

(** [a || b] on strings that may be missing: [a] when it is truthy. *)
Definition or_else (a : option string) (b : string) : string :=
  match a with
  | Some s => if truthy_string s then s else b
  | None => b
  end.

(** What a rejected promise or a [throw] carries. *)
Inductive JsError : Type :=
  | AxiosError (status : option Z)   (* [error.response?.status] *)
  | Error (message : string)         (* [new Error(message)] *)
  | SyntaxError.                     (* thrown by [JSON.parse] *)

(** How a promise settles. *)
Inductive Settled (A : Type) : Type :=
  | Fulfilled (value : A)
  | Rejected (reason : JsError).

Arguments Fulfilled {A} value.
Arguments Rejected {A} reason.

(* ------------------------------------------------------------------ *)
(** ** Reply trees and [countTotalReplies] *)

Module Replies.

(** A [Discussion] as the component reads it: an identifier, a text, and
    the optional list of nested replies ([replies?: Discussion[]]). *)
Inductive Discussion : Type :=
  mkDiscussion {
    id : Z;
    content : string;
    replies : option (list Discussion);
  }.

(** The reducer of [countTotalReplies]:
    [(count, reply) => count + 1 + countTotalReplies(reply.replies)];
    [inner reply] stands for the recursive call on [reply.replies]. *)
Definition step (inner : Discussion → nat) (count : nat) (reply : Discussion) : nat :=
  count + 1 + inner reply.

(** [countTotalReplies(reply.replies)], by structural recursion on [reply]. *)
Fixpoint countNested (reply : Discussion) : nat :=
  match reply with
  | mkDiscussion _ _ None => 0
  | mkDiscussion _ _ (Some rs) =>
      match rs with
      | [] => 0
      | _ => fold_left (fun count r => count + 1 + countNested r) rs 0
      end
  end.

(** [countTotalReplies]: [0] when [replies] is undefined or empty,
    otherwise [replies.reduce(..., 0)]. *)
Definition countTotalReplies (rs : option (list Discussion)) : nat :=
  match rs with
  | None => 0
  | Some [] => 0
  | Some l => fold_left (step countNested) l 0
  end.

(** The specification's reading. [descendants d] lists every reply below
    [d]: each direct reply, followed by its own descendants. *)
Fixpoint descendants (d : Discussion) : list Discussion :=
  match d with
  | mkDiscussion _ _ None => []
  | mkDiscussion _ _ (Some rs) => flat_map (fun r => r :: descendants r) rs
  end.

(** Every reply node of a reply list, nested ones included, each once. *)
Definition all_replies (rs : option (list Discussion)) : list Discussion :=
  match rs with
  | None => []
  | Some l => flat_map (fun r => r :: descendants r) l
  end.

End Replies.

(* ------------------------------------------------------------------ *)
(** ** The bounds-restricted map picker *)

Module MapPicker.

Record Bounds : Type := {
  minLat : float;
  maxLat : float;
  minLng : float;
  maxLng : float;
}.

(** Mactan island and Cordova. *)
Definition ISLAND_BOUNDS_OPTS : Bounds := {|
  minLat := 10.2300;
  maxLat := 10.3600;
  minLng := 123.9300;
  maxLng := 124.0600;
|}.

(** [a >= b] on numbers: false when either side is [NaN]. *)
Definition geb (a b : float) : bool := (b <=? a)%float.

Definition isWithinBounds (latitude longitude : float) : bool :=
  geb latitude (minLat ISLAND_BOUNDS_OPTS)
  && (latitude <=? maxLat ISLAND_BOUNDS_OPTS)%float
  && geb longitude (minLng ISLAND_BOUNDS_OPTS)
  && (longitude <=? maxLng ISLAND_BOUNDS_OPTS)%float.

(** The specification's words: a coordinate inside the island bounding
    box, minLat 10.23, maxLat 10.36, minLng 123.93, maxLng 124.06. *)
Definition inside_island (lat lng : float) : Prop :=
  (10.23 <=? lat)%float = true ∧ (lat <=? 10.36)%float = true
  ∧ (123.93 <=? lng)%float = true ∧ (lng <=? 124.06)%float = true.

Definition LatLng : Type := (float * float)%type.

Record Marker : Type := {
  position : LatLng;
  draggable : bool;
}.

(** What the handlers read and write: [markerRef.current], which is the
    marker shown on the map, and the calls made so far, oldest first, to
    [onLocationSelect] and to [map.flyTo]. *)
Record MapState : Type := {
  markerRef : option Marker;
  selected : list LatLng;
  flights : list LatLng;
}.

Inductive MapEvent : Type :=
  | Click (lat lng : float)      (* [map.on('click')], with [e.latlng] *)
  | DragEnd (lat lng : float).   (* the marker's ['dragend'], with [marker.getLatLng()] *)

(** The map as the initialising effect leaves it: a marker only for
    truthy props inside the bounds, draggable unless the picker is
    disabled. *)
Definition initial (disabled : bool) (lat lng : option float) : MapState :=
  match lat, lng with
  | Some la, Some ln =>
      if truthy_number la && truthy_number ln && isWithinBounds la ln
      then {| markerRef := Some {| position := (la, ln); draggable := negb disabled |};
              selected := []; flights := [] |}
      else {| markerRef := None; selected := []; flights := [] |}
  | _, _ => {| markerRef := None; selected := []; flights := [] |}
  end.

(** The click handler. A click outside the bounds does nothing; otherwise
    the marker of [markerRef] is taken off the map and a new draggable one
    takes its place, [onLocationSelect] is called and the map flies there. *)
Definition on_click (lat lng : float) (st : MapState) : MapState :=
  if negb (isWithinBounds lat lng) then st
  else
    {| markerRef := Some {| position := (lat, lng); draggable := true |};
       selected := selected st ++ [(lat, lng)];
       flights := flights st ++ [(lat, lng)] |}.

(** The marker's [dragend] handler: it reports where the marker now is. *)
Definition on_dragend (lat lng : float) (st : MapState) : MapState :=
  {| markerRef := option_map (fun m => {| position := (lat, lng); draggable := draggable m |})
                    (markerRef st);
     selected := selected st ++ [(lat, lng)];
     flights := flights st |}.

(** One event delivered to the picker. The click handler is registered
    only when the picker is not disabled; only a draggable marker can be
    dragged. *)
Definition handle (disabled : bool) (ev : MapEvent) (st : MapState) : MapState :=
  match ev with
  | Click lat lng => if disabled then st else on_click lat lng st
  | DragEnd lat lng =>
      match markerRef st with
      | Some m => if draggable m then on_dragend lat lng st else st
      | None => st
      end
  end.

End MapPicker.

(* ------------------------------------------------------------------ *)
(** ** Token expiry *)

Module Jwt.

(** The payload of a token as [getTokenExpiration] reads it: its [exp]
    claim, a number of seconds, or nothing. *)
Record Payload : Type := {
  exp : option float;
}.

(** The browser built-ins behind [JSON.parse(atob(segment))]: [None] when
    [atob] or [JSON.parse] throws, or when the parsed value is [null], on
    which reading [.exp] throws. *)
Class Decoder : Type := {
  decode : string → option Payload;
}.

(** [s.split(sep)] for a one-character separator. *)
Fixpoint split (sep : Ascii.ascii) (s : string) : list string :=
  match s with
  | EmptyString => [EmptyString]
  | String c s' =>
      if Ascii.eqb c sep then EmptyString :: split sep s'
      else match split sep s' with
           | [] => [String c EmptyString]
           | w :: ws => String c w :: ws
           end
  end.

(** [atob(x)] turns a missing argument into the text ["undefined"]. *)
Definition segment (token : string) : string :=
  default "undefined" (split "."%char token !! 1).

Section WithDecoder.
Context `{Decoder}.

(** [getTokenExpiration]: the expiry in milliseconds, or [null]. *)
Definition getTokenExpiration (token : string) : option float :=
  match decode (segment token) with
  | None => None                                  (* caught *)
  | Some payload =>
      match exp payload with
      | Some e => if truthy_number e then Some (e * 1000)%float else None
      | None => None
      end
  end.

(** [isTokenExpiringSoon], with [now] for [Date.now()]. *)
Definition isTokenExpiringSoon (now : float) (token : option string) : bool :=
  match token with
  | None => true
  | Some t =>
      if negb (truthy_string t) then true
      else
        match getTokenExpiration t with
        | None => true
        | Some expiration =>
            if negb (truthy_number expiration) then true
            else
              let twoMinutesFromNow := (now + 2 * 60 * 1000)%float in
              (expiration <=? twoMinutesFromNow)%float
        end
  end.

(** The specification's words. The decoded expiry time of a token, in
    milliseconds; a token with no decodable expiry claim (the payload
    cannot be decoded, or it has no [exp] field); an expiry time inside the
    two-minute lookahead window, that is, not later than two minutes from
    [now]. *)
Definition decoded_expiry (token : string) : option float :=
  payload ← decode (segment token);
  e ← exp payload;
  Some (e * 1000)%float.

Definition no_decodable_expiry (token : string) : Prop :=
  decode (segment token) = None
  ∨ ∃ payload, decode (segment token) = Some payload ∧ exp payload = None.

Definition within_lookahead (now expiry : float) : Prop :=
  (expiry <=? now + 120000)%float = true.

End WithDecoder.

End Jwt.

(* ------------------------------------------------------------------ *)
(** ** The HTTP client: [ApiService] and its interceptors *)

Module ApiService.

(** [ExtendedAxiosRequestConfig]: the request, its headers, and the
    [_retry] flag the response interceptor sets. *)
Record Config : Type := {
  url : string;
  body : string;
  headers : option (gmap string string);
  _retry : bool;
}.

Record Response : Type := {
  status : Z;
  data : string;
}.

(** The token pair of a refresh reply; the refresh token may be missing. *)
Record Tokens : Type := {
  accessToken : string;
  refreshToken : option string;
}.

(** [response.data] of the refresh call: [status], [message] and
    [data?.tokens]. *)
Record RefreshReply : Type := {
  reply_status : option string;
  reply_message : option string;
  reply_tokens : option Tokens;
}.

(** The network and the clock, over a state [E] of the outside world.
    [adapter] performs a request of the client; [post_refresh_token] is
    the bare [axios.post] to [/auth/v1/refresh-token], which no
    interceptor sees. *)
Class Network (E : Type) : Type := {
  Date_now : E → float;
  adapter : Config → E → Settled Response * E;
  post_refresh_token : string → E → Settled RefreshReply * E;
}.

Inductive RefreshOrigin : Type :=
  | Proactive    (* from the request interceptor *)
  | Reactive.    (* from the response interceptor, after a 401 *)

(** A call that went out to the network. *)
Inductive NetCall : Type :=
  | SentRequest (config : Config)
  | SentRefresh (origin : RefreshOrigin) (token : string).

(** The specification's words: the reactive refreshes, the proactive
    refreshes and the requests of the client among the calls of a run. *)
Definition count_calls (p : NetCall → bool) (l : list NetCall) : nat :=
  length (List.filter p l).

Definition is_refresh (o : RefreshOrigin) (c : NetCall) : bool :=
  match c, o with
  | SentRefresh Proactive _, Proactive => true
  | SentRefresh Reactive _, Reactive => true
  | _, _ => false
  end.

Definition is_request (c : NetCall) : bool :=
  match c with
  | SentRequest _ => true
  | SentRefresh _ _ => false
  end.

Definition reactive_refreshes : list NetCall → nat := count_calls (is_refresh Reactive).
Definition proactive_refreshes : list NetCall → nat := count_calls (is_refresh Proactive).
Definition requests_sent : list NetCall → nat := count_calls is_request.

(** What the client reads and writes. [window_defined] is
    [typeof window !== 'undefined']; [navigations] lists the assignments to
    [window.location.href], and [calls] the calls sent, both oldest first. *)
Record World (E : Type) : Type := {
  window_defined : bool;
  localStorage : gmap string string;
  pathname : string;
  navigations : list string;
  calls : list NetCall;
  env : E;
}.

Arguments window_defined {E} _.
Arguments localStorage {E} _.
Arguments pathname {E} _.
Arguments navigations {E} _.
Arguments calls {E} _.
Arguments env {E} _.

Section Client.
Context `{Jwt.Decoder} {E : Type} `{Network E}.

Definition set_storage (m : gmap string string) (w : World E) : World E :=
  {| window_defined := window_defined w; localStorage := m; pathname := pathname w;
     navigations := navigations w; calls := calls w; env := env w |}.

Definition set_href (href : string) (w : World E) : World E :=
  {| window_defined := window_defined w; localStorage := localStorage w;
     pathname := pathname w; navigations := navigations w ++ [href];
     calls := calls w; env := env w |}.

Definition sent (c : NetCall) (e : E) (w : World E) : World E :=
  {| window_defined := window_defined w; localStorage := localStorage w;
     pathname := pathname w; navigations := navigations w;
     calls := calls w ++ [c]; env := e |}.

Definition getItem (key : string) (w : World E) : option string :=
  localStorage w !! key.

Definition setItem (key value : string) (w : World E) : World E :=
  set_storage (<[key := value]> (localStorage w)) w.

Definition removeItem (key : string) (w : World E) : World E :=
  set_storage (delete key (localStorage w)) w.

(** The three [removeItem] calls both interceptor branches make. *)
Definition clear_session (w : World E) : World E :=
  removeItem "user" (removeItem "refreshToken" (removeItem "accessToken" w)).

Definition bearer (token : string) : string := "Bearer " +:+ token.

(** [if (config.headers) config.headers.Authorization = `Bearer ${token}`]. *)
Definition set_authorization (token : string) (config : Config) : Config :=
  match headers config with
  | Some h =>
      {| url := url config; body := body config;
         headers := Some (<["Authorization" := bearer token]> h);
         _retry := _retry config |}
  | None => config
  end.

(** The [Authorization] header of a request, if it has one. *)
Definition authorization (config : Config) : option string :=
  h ← headers config; h !! "Authorization".

Definition mark_retried (config : Config) : Config :=
  {| url := url config; body := body config; headers := headers config; _retry := true |}.

(** The tokens of a reply that passes
    [status === 'success' && data?.tokens]. *)
Definition refreshed_tokens (reply : RefreshReply) : option Tokens :=
  if decide (reply_status reply = Some "success") then reply_tokens reply else None.

(** Both interceptors store a new pair the same way: the access token
    always, the refresh token when the reply carries a truthy one. *)
Definition store_tokens (t : Tokens) (w : World E) : World E :=
  let w1 := setItem "accessToken" (accessToken t) w in
  match refreshToken t with
  | Some r => if truthy_string r then setItem "refreshToken" r w1 else w1
  | None => w1
  end.

Definition post_refresh (origin : RefreshOrigin) (token : string) (w : World E)
  : Settled RefreshReply * World E :=
  let '(result, e) := post_refresh_token token (env w) in
  (result, sent (SentRefresh origin token) e w).

Definition send (config : Config) (w : World E) : Settled Response * World E :=
  let '(result, e) := adapter config (env w) in
  (result, sent (SentRequest config) e w).

(** The specification's words: the tokens a refresh call renewed, if it
    succeeded; the session keys are cleared. *)
Definition renewed (result : Settled RefreshReply) : option Tokens :=
  match result with
  | Fulfilled reply => refreshed_tokens reply
  | Rejected _ => None
  end.

Definition session_cleared (before after : World E) : Prop :=
  localStorage after
  = delete "user" (delete "refreshToken" (delete "accessToken" (localStorage before))).

(** The proactive refresh of the request interceptor: the token to attach
    afterwards, and the world. A refresh that fails is only logged. *)
Definition proactive_refresh (token : option string) (refresh : string) (w : World E)
  : option string * World E :=
  match post_refresh Proactive refresh w with
  | (Fulfilled reply, w1) =>
      match refreshed_tokens reply with
      | Some t => (Some (accessToken t), store_tokens t w1)
      | None => (token, w1)
      end
  | (Rejected _, w1) => (token, w1)
  end.

(** The request interceptor. *)
Definition request_interceptor (config : Config) (w : World E) : Config * World E :=
  if window_defined w then
    let token := getItem "accessToken" w in
    let refresh := getItem "refreshToken" w in
    let '(token, w) :=
      if truthy token && truthy refresh
         && Jwt.isTokenExpiringSoon (Date_now (env w)) token
      then proactive_refresh token (default "" refresh) w
      else (token, w) in
    match token with
    | Some t => ((if truthy_string t then set_authorization t config else config), w)
    | None => (config, w)
    end
  else (config, w).

(** [error.response?.status]. *)
Definition response_status (error : JsError) : option Z :=
  match error with
  | AxiosError st => st
  | _ => None
  end.

(** The [catch] block of the response interceptor. *)
Definition refresh_failed (refreshError : JsError) (w : World E) : Settled Response * World E :=
  (Rejected refreshError,
   if window_defined w then
     let w := clear_session w in
     if decide (pathname w ≠ "/login") then set_href "/login" w else w
   else w).

(** The rejection handler of the response interceptor. [replay] is
    [this.api(originalRequest)]: its promise is returned as it is, it is
    not awaited inside the [try], so the [catch] block never sees it. *)
Definition response_rejected
    (replay : Config → World E → option (Settled Response * World E))
    (error : JsError) (originalRequest : Config) (w : World E)
  : option (Settled Response * World E) :=
  if bool_decide (response_status error = Some 401%Z) && negb (_retry originalRequest) then
    let originalRequest := mark_retried originalRequest in
    if window_defined w then
      let refresh := getItem "refreshToken" w in
      if negb (truthy refresh) then
        (* No refresh token, redirect to login *)
        Some (Rejected error, set_href "/login" (clear_session w))
      else
        match post_refresh Reactive (default "" refresh) w with
        | (Fulfilled reply, w1) =>
            match refreshed_tokens reply with
            | Some t =>
                replay (set_authorization (accessToken t) originalRequest)
                       (store_tokens t w1)
            | None =>
                Some (refresh_failed
                        (Error (or_else (reply_message reply) "Invalid refresh response"))
                        w1)
            end
        | (Rejected refreshError, w1) => Some (refresh_failed refreshError w1)
        end
    else Some (Rejected error, w)
  else Some (Rejected error, w).

(** [this.api(config)]: request interceptor, network, response
    interceptor. The replay calls the client again; [fuel] bounds the
    depth of these calls. *)
Fixpoint request (fuel : nat) (config : Config) (w : World E)
  : option (Settled Response * World E) :=
  match fuel with
  | O => None
  | S fuel =>
      let '(config, w) := request_interceptor config w in
      match send config w with
      | (Fulfilled response, w) => Some (Fulfilled response, w)
      | (Rejected error, w) => response_rejected (request fuel) error config w
      end
  end.

End Client.

End ApiService.

(* ------------------------------------------------------------------ *)
(** ** The authentication context: [AuthProvider] *)

Module AuthProvider.

Record User : Type := {
  id : string;
  name : option string;
  email : option string;
  role : option string;
}.

Record AuthTokens : Type := {
  accessToken : string;
  refreshToken : string;
}.

(** [response.data] of a successful login. *)
Record LoginData : Type := {
  tokens : AuthTokens;
  user_data : User;
}.

(** The envelope every endpoint answers with. *)
Record ServiceResponse (A : Type) : Type := {
  status : string;
  message : option string;
  data : option A;
}.

Arguments status {A} _.
Arguments message {A} _.
Arguments data {A} _.

(** [JSON.stringify] and [JSON.parse] on user profiles. [JSON_parse]
    gives [None] where it throws, and [Some None] for a text that parses
    to a falsy value such as [null]. *)
Class Json : Type := {
  JSON_stringify : User → string;
  JSON_parse : string → option (option User);
}.

(** The methods of [api] the context calls, over a state [E] of the
    outside world. A call may itself rewrite [localStorage], as the
    interceptors of the client do. *)
Class Api (E : Type) : Type := {
  api_login : string → string → gmap string string → E
              → Settled (ServiceResponse LoginData) * gmap string string * E;
  api_getCurrentUser : gmap string string → E
              → Settled (ServiceResponse User) * gmap string string * E;
}.

Inductive ApiCall : Type :=
  | CallLogin (email password : string)
  | CallGetCurrentUser.

(** [localStorage], the [user] of [useState], the calls made to [api],
    oldest first, and the outside world. *)
Record State (E : Type) : Type := {
  localStorage : gmap string string;
  user : option User;
  api_calls : list ApiCall;
  outside : E;
}.

Arguments localStorage {E} _.
Arguments user {E} _.
Arguments api_calls {E} _.
Arguments outside {E} _.

Section Provider.
Context `{Json} {E : Type} `{Api E}.

Definition set_storage (m : gmap string string) (s : State E) : State E :=
  {| localStorage := m; user := user s; api_calls := api_calls s; outside := outside s |}.

Definition setUser (u : option User) (s : State E) : State E :=
  {| localStorage := localStorage s; user := u; api_calls := api_calls s;
     outside := outside s |}.

Definition getItem (key : string) (s : State E) : option string :=
  localStorage s !! key.

Definition setItem (key value : string) (s : State E) : State E :=
  set_storage (<[key := value]> (localStorage s)) s.

Definition removeItem (key : string) (s : State E) : State E :=
  set_storage (delete key (localStorage s)) s.

(** [isAuthenticated: !!user]. *)
Definition isAuthenticated (s : State E) : bool :=
  match user s with
  | Some _ => true
  | None => false
  end.

(** [await api.login(email, password)]. *)
Definition call_login (email password : string) (s : State E)
  : Settled (ServiceResponse LoginData) * State E :=
  let '(result, m, e) := api_login email password (localStorage s) (outside s) in
  (result, {| localStorage := m; user := user s;
              api_calls := api_calls s ++ [CallLogin email password]; outside := e |}).

(** [await api.getCurrentUser()]. *)
Definition call_getCurrentUser (s : State E) : Settled (ServiceResponse User) * State E :=
  let '(result, m, e) := api_getCurrentUser (localStorage s) (outside s) in
  (result, {| localStorage := m; user := user s;
              api_calls := api_calls s ++ [CallGetCurrentUser]; outside := e |}).

Definition setAuthData (t : AuthTokens) (userData : User) (s : State E) : State E :=
  let s := setItem "accessToken" (accessToken t) s in
  let s := setItem "refreshToken" (refreshToken t) s in
  let s := setItem "user" (JSON_stringify userData) s in
  setUser (Some userData) s.

(** [response.status === 'success' && response.data]. *)
Definition payload {A : Type} (response : ServiceResponse A) : option A :=
  if bool_decide (status response = "success") then data response else None.

Definition login (email password : string) (s : State E) : Settled unit * State E :=
  match call_login email password s with
  | (Fulfilled response, s) =>
      match payload response with
      | Some d => (Fulfilled (), setAuthData (tokens d) (user_data d) s)
      | None => (Rejected (Error (or_else (message response) "Login failed")), s)
      end
  | (Rejected error, s) => (Rejected error, s)
  end.

Definition logout (s : State E) : State E :=
  let s := removeItem "user" s in
  let s := removeItem "accessToken" s in
  let s := removeItem "refreshToken" s in
  setUser None s.

(** [if (storedUser) setUser(JSON.parse(storedUser))]: the fallback to the
    cached profile. [JSON.parse] may throw. *)
Definition fall_back (storedUser : option string) (s : State E) : Settled unit * State E :=
  match storedUser with
  | Some text =>
      if truthy_string text then
        match JSON_parse text with
        | Some u => (Fulfilled (), setUser u s)
        | None => (Rejected SyntaxError, s)
        end
      else (Fulfilled (), s)
  | None => (Fulfilled (), s)
  end.

(** The [catch] block of [refreshUser]: it reads the cached profile again. *)
Definition refreshUser_catch (s : State E) : Settled unit * State E :=
  fall_back (getItem "user" s) s.

(** [storedUser ? JSON.parse(storedUser) : null]. *)
Definition parse_stored (storedUser : option string) : option (option User) :=
  match storedUser with
  | Some text => if truthy_string text then JSON_parse text else Some None
  | None => Some None
  end.

(** [currentRole && newRole && currentRole !== newRole]. *)
Definition role_changed (currentRole newRole : option string) : bool :=
  truthy currentRole && truthy newRole && bool_decide (currentRole ≠ newRole).

Definition refreshUser (s : State E) : Settled unit * State E :=
  if negb (truthy (getItem "accessToken" s)) then (Fulfilled (), s)
  else
    let storedUser := getItem "user" s in
    match parse_stored storedUser with
    | None => refreshUser_catch s
    | Some currentUser =>
        let currentRole := currentUser ≫= role in
        match call_getCurrentUser s with
        | (Fulfilled response, s) =>
            match payload response with
            | Some userData =>
                let newRole := role userData in
                if role_changed currentRole newRole then
                  (Fulfilled (), setUser (Some userData) (setItem "user" (JSON_stringify userData) s))
                else
                  match currentUser with
                  | None =>
                      (Fulfilled (), setUser (Some userData) (setItem "user" (JSON_stringify userData) s))
                  | Some _ => (Fulfilled (), s)
                  end
            | None =>
                match fall_back storedUser s with
                | (Rejected _, s) => refreshUser_catch s
                | done => done
                end
            end
        | (Rejected _, s) => refreshUser_catch s
        end
    end.

(** The specification's words: the cached profile, if one exists; the
    fetched role differs from the cached role. *)
Definition cached_profile (s : State E) : option User :=
  match parse_stored (getItem "user" s) with
  | Some (Some u) => Some u
  | _ => None
  end.

Definition role_differs (cached fetched : option string) : Prop :=
  cached ≠ fetched.

(** [refreshUser] reaches its call of the backend when an access token
    is in store and the cached text, if there is one, parses. *)
Definition calls_backend (s : State E) : bool :=
  truthy (getItem "accessToken" s)
  && match parse_stored (getItem "user" s) with
     | Some _ => true
     | None => false
     end.

(** The specification's words, for a [refreshUser] under study. It
    overwrites the cached profile only when no cached profile exists or
    the fetched role differs from the cached role: afterwards storage is
    as it was, or as the call of the backend left it, or that with the
    fetched profile under [user], the last only under that condition. *)
Definition overwrites_only_on_role_change
    (refresh : State E → Settled unit * State E) : Prop :=
  ∀ s : State E,
    let s' := (refresh s).2 in
    let result := (call_getCurrentUser s).1 in
    let s1 := (call_getCurrentUser s).2 in
    localStorage s' = localStorage s
    ∨ localStorage s' = localStorage s1
    ∨ ∃ response userData,
        result = Fulfilled response ∧ payload response = Some userData
        ∧ localStorage s' = <["user" := JSON_stringify userData]> (localStorage s1)
        ∧ (cached_profile s = None
           ∨ role_differs (cached_profile s ≫= role) (role userData)).

(** It overwrites the cached profile on every successful response. *)
Definition overwrites_on_every_success
    (refresh : State E → Settled unit * State E) : Prop :=
  ∀ (s : State E) response userData,
    truthy (getItem "accessToken" s) = true →
    (call_getCurrentUser s).1 = Fulfilled response →
    payload response = Some userData →
    refresh s
    = (Fulfilled (),
       setUser (Some userData)
               (setItem "user" (JSON_stringify userData) (call_getCurrentUser s).2)).

(** On network failure it falls back silently to the last cached
    profile: nothing is written, no error is raised, and the in-memory
    user becomes the cached profile, if there is one. *)
Definition falls_back_on_failure
    (refresh : State E → Settled unit * State E) : Prop :=
  ∀ (s : State E) error,
    let s1 := (call_getCurrentUser s).2 in
    truthy (getItem "accessToken" s) = true →
    is_Some (parse_stored (getItem "user" s)) →
    (call_getCurrentUser s).1 = Rejected error →
    localStorage (refresh s).2 = localStorage s1
    ∧ (truthy (getItem "user" s1) = false → refresh s = (Fulfilled (), s1))
    ∧ (∀ text u,
         getItem "user" s1 = Some text → truthy_string text = true →
         JSON_parse text = Some u →
         refresh s = (Fulfilled (), setUser u s1)).

End Provider.

(** The specification's words: the three session keys, and the keys of
    the external-interfaces section. *)
Definition session_keys : list string := ["accessToken"; "refreshToken"; "user"].

Definition persisted_keys : list string := session_keys ++ ["lastRoleCheck"].

End AuthProvider.

(* ------------------------------------------------------------------ *)
(** ** The authentication context that polls

    The repository holds a second [AuthProvider], which refreshes the
    user on a two-minute interval. Its [login], [logout] and
    [setAuthData] are those above, text for text; its [refreshUser] is
    not. *)

Module AuthProviderPolling.
Import AuthProvider.

Section Provider.
Context `{Json} {E : Type} `{Api E}.

Definition refreshUser (s : State E) : Settled unit * State E :=
  if negb (truthy (getItem "accessToken" s)) then (Fulfilled (), s)
  else
    match call_getCurrentUser s with
    | (Fulfilled response, s) =>
        match payload response with
        | Some userData =>
            (Fulfilled (), setUser (Some userData) (setItem "user" (JSON_stringify userData) s))
        | None =>
            match fall_back (getItem "user" s) s with
            | (Rejected _, s) => refreshUser_catch s
            | done => done
            end
        end
    | (Rejected _, s) => refreshUser_catch s
    end.

End Provider.

End AuthProviderPolling.

(* ------------------------------------------------------------------ *)
(** ** Rendering a thread: [toggleReplies] and [renderReply] *)

Module ReplyView.
Import Replies.

(** [expandedReplies], an object from reply ids to booleans. *)
Definition toggleReplies (discussionId : Z) (expandedReplies : gmap Z bool) : gmap Z bool :=
  <[discussionId := negb (default false (expandedReplies !! discussionId))]> expandedReplies.

(** [expandedReplies[reply.id]] as a condition: nested replies are shown
    only once toggled on. *)
Definition shown_nested (expandedReplies : gmap Z bool) (i : Z) : bool :=
  default false (expandedReplies !! i).

(** [expandedReplies[discussion.id] !== false]: the replies of a main
    discussion are shown unless toggled off. *)
Definition shown_top (expandedReplies : gmap Z bool) (i : Z) : bool :=
  negb (bool_decide (expandedReplies !! i = Some false)).

Definition maxDepth : nat := 5.
Definition baseIndent : nat := 52.
Definition levelIndent : nat := 40.
Definition borderPadding : nat := 16.

Definition totalIndent (depth parentIndent : nat) : nat :=
  if Nat.eqb depth 0 then baseIndent else parentIndent + levelIndent + borderPadding.

(** [reply.replies && reply.replies.length > 0]. *)
Definition has_replies (rs : option (list Discussion)) : bool :=
  match rs with
  | Some (_ :: _) => true
  | _ => false
  end.

(** What [renderReply] puts on the page for one reply: the reply, its
    depth, the left margin of its content in pixels, and, when the
    show/hide button is drawn, the number on its label. *)
Record Row : Type := {
  reply_id : Z;
  depth : nat;
  marginLeft : nat;
  toggle : option nat;
}.

(** [renderReply(reply, depth, parentIndent)]: the row of the reply, then
    those of its nested replies, in the order of the page. *)
Fixpoint renderReply (expandedReplies : gmap Z bool) (reply : Discussion)
    (depth parentIndent : nat) : list Row :=
  match reply with
  | mkDiscussion i _ rs =>
      let total := totalIndent depth parentIndent in
      let row :=
        {| reply_id := i; depth := depth; marginLeft := total;
           toggle := if has_replies rs && Nat.ltb depth maxDepth
                     then Some (countTotalReplies rs) else None |} in
      row ::
      match rs with
      | Some l =>
          if has_replies rs && Nat.ltb depth maxDepth && shown_nested expandedReplies i
          then flat_map (fun nestedReply => renderReply expandedReplies nestedReply (depth + 1) total) l
          else []
      | None => []
      end
  end.

(** The replies of a main discussion, as the discussion list draws them. *)
Definition renderReplies (expandedReplies : gmap Z bool) (discussion : Discussion) : list Row :=
  match replies discussion with
  | Some l =>
      if has_replies (replies discussion) && shown_top expandedReplies (id discussion)
      then flat_map (fun reply => renderReply expandedReplies reply 0 0) l
      else []
  | None => []
  end.

(** The number of levels of replies below a discussion. *)
Fixpoint levels (d : Discussion) : nat :=
  match d with
  | mkDiscussion _ _ None => 0
  | mkDiscussion _ _ (Some rs) => fold_right (fun r n => Nat.max (S (levels r)) n) 0 rs
  end.

End ReplyView.

(* ------------------------------------------------------------------ *)
(** ** The map picker as a whole: where the map opens, runs of events *)

Module MapPickerView.
Import MapPicker.

(** Basak/Marigondon, the centre of the island. *)
Definition DEFAULT_CENTER : LatLng := (10.2929%float, 123.9750%float).

(** [startLat] and [startLng]: the props when they are truthy and inside
    the bounds, the default centre otherwise. *)
Definition start_center (lat lng : option float) : LatLng :=
  match lat, lng with
  | Some la, Some ln =>
      if truthy_number la && truthy_number ln && isWithinBounds la ln
      then (la, ln) else DEFAULT_CENTER
  | _, _ => DEFAULT_CENTER
  end.

(** The events of a session, delivered in order. *)
Definition run (disabled : bool) (events : list MapEvent) (st : MapState) : MapState :=
  fold_left (fun st ev => handle disabled ev st) events st.

Definition is_click (ev : MapEvent) : bool :=
  match ev with
  | Click _ _ => true
  | DragEnd _ _ => false
  end.

(** The coordinates of the clicks that fall inside the bounds. *)
Definition clicks_inside (events : list MapEvent) : list LatLng :=
  flat_map (fun ev =>
              match ev with
              | Click lat lng => if isWithinBounds lat lng then [(lat, lng)] else []
              | DragEnd _ _ => []
              end) events.

End MapPickerView.

(* ------------------------------------------------------------------ *)
(** ** The base URL of the API: [getApiBaseUrl] *)

Module ApiBase.

(** [s.endsWith(suffix)]. *)
Fixpoint endsWith (s suffix : string) : bool :=
  if String.eqb s suffix then true
  else
    match s with
    | EmptyString => false
    | String _ s' => endsWith s' suffix
    end.

(** [s.replace(/\/$/, '')]: one slash off the end, if there is one. *)
Fixpoint strip_trailing_slash (s : string) : string :=
  match s with
  | EmptyString => EmptyString
  | String c EmptyString => if Ascii.eqb c "/" then EmptyString else s
  | String c s' => String c (strip_trailing_slash s')
  end.

(** [getApiBaseUrl], over [process.env.NEXT_PUBLIC_API_URL] and
    [typeof window !== 'undefined']. *)
Definition getApiBaseUrl (envUrl : option string) (window_defined : bool) : string :=
  if truthy envUrl then
    let cleanUrl := strip_trailing_slash (default "" envUrl) in
    if endsWith cleanUrl "/api" then cleanUrl else cleanUrl +:+ "/api"
  else if window_defined then "/api"
  else "http://localhost:7000/api".

End ApiBase.

(* ------------------------------------------------------------------ *)
(** ** What a run of the client leaves alone *)

Module ClientFrame.
Import ApiService.

(** The specification's words: the three session keys. *)
Definition session_keys : list string := ["accessToken"; "refreshToken"; "user"].

(** Between two worlds only the session keys of [localStorage] differ:
    every other key, the page and the kind of runtime are the same. *)
Definition only_session_keys_differ {E : Type} (w w' : World E) : Prop :=
  window_defined w' = window_defined w
  ∧ pathname w' = pathname w
  ∧ ∀ key, key ∉ session_keys → localStorage w' !! key = localStorage w !! key.

(** At most one navigation, and to the login page. *)
Definition navigated_to_login_at_most_once {E : Type} (w w' : World E) : Prop :=
  navigations w' = navigations w ∨ navigations w' = navigations w ++ ["/login"].

(** Two requests that differ in their [Authorization] header at most. *)
Definition same_but_authorization (config config' : Config) : Prop :=
  url config' = url config
  ∧ body config' = body config
  ∧ _retry config' = _retry config
  ∧ (headers config = None → headers config' = None)
  ∧ ∀ h, headers config = Some h →
         ∃ h', headers config' = Some h'
               ∧ ∀ key, key ≠ "Authorization" → h' !! key = h !! key.

(** A step that neither navigates nor touches anything but the session
    keys. *)
Definition quiet {E : Type} (w w' : World E) : Prop :=
  only_session_keys_differ w w' ∧ navigations w' = navigations w.

(** The session survives: no navigation, the cached profile untouched,
    and a token that was in store still has a value. *)
Definition session_kept {E : Type} (w w' : World E) : Prop :=
  navigations w' = navigations w
  ∧ localStorage w' !! "user" = localStorage w !! "user"
  ∧ (is_Some (localStorage w !! "accessToken") → is_Some (localStorage w' !! "accessToken"))
  ∧ (is_Some (localStorage w !! "refreshToken") → is_Some (localStorage w' !! "refreshToken")).

(** Storage holds a token under [key]: a text the code's own test,
    [if (token)], takes for one, so not the empty text. *)
Definition holds_token {E : Type} (key : string) (w : World E) : Prop :=
  ∃ token, localStorage w !! key = Some token ∧ truthy_string token = true.

(** Between two worlds only the two token keys of [localStorage] differ:
    the cached profile, every other key, the page and the navigations are
    the same. *)
Definition only_tokens_differ {E : Type} (w w' : World E) : Prop :=
  window_defined w' = window_defined w
  ∧ pathname w' = pathname w
  ∧ navigations w' = navigations w
  ∧ ∀ key, key ≠ "accessToken" → key ≠ "refreshToken" →
           localStorage w' !! key = localStorage w !! key.

End ClientFrame.

(* ------------------------------------------------------------------ *)
(** ** The authentication context on mount: [refreshTokenIfNeeded] and
    [loadUser] *)

Module AuthMount.
Import AuthProvider.

(** The token pair of a refresh response; the refresh token may be
    missing. *)
Record NewTokens : Type := {
  newAccessToken : string;
  newRefreshToken : option string;
}.

(** [response.data] of [api.refreshToken]: [data?.tokens]. *)
Record RefreshData : Type := {
  refreshed : option NewTokens;
}.

(** [api.refreshToken], which like the other methods of [api] may itself
    rewrite [localStorage]. *)
Class RefreshApi (E : Type) : Type := {
  api_refreshToken : string → gmap string string → E
                     → Settled (ServiceResponse RefreshData) * gmap string string * E;
}.

(** The provider once mounted: the state of the context, [isLoading], and
    the refresh tokens sent to [api.refreshToken], oldest first. *)
Record Mounted (E : Type) : Type := {
  state : State E;
  isLoading : bool;
  refresh_calls : list string;
}.

Arguments state {E} _.
Arguments isLoading {E} _.
Arguments refresh_calls {E} _.

Section Mount.
Context `{Jwt.Decoder} `{Json} {E : Type} `{RefreshApi E}.

Definition with_state (s : State E) (m : Mounted E) : Mounted E :=
  {| state := s; isLoading := isLoading m; refresh_calls := refresh_calls m |}.

(** [await api.refreshToken(refreshToken)]. *)
Definition call_refreshToken (token : string) (m : Mounted E)
  : Settled (ServiceResponse RefreshData) * Mounted E :=
  let '(result, storage, e) :=
    api_refreshToken token (localStorage (state m)) (outside (state m)) in
  (result,
   {| state := {| localStorage := storage; user := user (state m);
                  api_calls := api_calls (state m); outside := e |};
      isLoading := isLoading m;
      refresh_calls := refresh_calls m ++ [token] |}).

(** [response.status === 'success' && response.data?.tokens]. *)
Definition tokens_of (response : ServiceResponse RefreshData) : option NewTokens :=
  if bool_decide (status response = "success") then data response ≫= refreshed else None.

(** The two [setItem] calls after a successful refresh. *)
Definition store_new_tokens (t : NewTokens) (s : State E) : State E :=
  let s := setItem "accessToken" (newAccessToken t) s in
  match newRefreshToken t with
  | Some r => if truthy_string r then setItem "refreshToken" r s else s
  | None => s
  end.

(** [refreshTokenIfNeeded], with [now] for [Date.now()]. It catches
    whatever the call throws. *)
Definition refreshTokenIfNeeded (now : float) (m : Mounted E) : bool * Mounted E :=
  let accessToken := getItem "accessToken" (state m) in
  let refreshToken := getItem "refreshToken" (state m) in
  if negb (truthy refreshToken) then (false, m)
  else if Jwt.isTokenExpiringSoon now accessToken then
    match call_refreshToken (default "" refreshToken) m with
    | (Fulfilled response, m) =>
        match tokens_of response with
        | Some t => (true, with_state (store_new_tokens t (state m)) m)
        | None => (true, m)
        end
    | (Rejected _, m) => (false, m)
    end
  else (true, m).

(** The provider as a reload of the page finds it: storage as it was
    left, no user in memory yet, loading. *)
Definition mount (s : State E) : Mounted E :=
  {| state := setUser None s; isLoading := true; refresh_calls := [] |}.

(** [loadUser], the effect that runs on mount. *)
Definition loadUser (now : float) (m : Mounted E) : Mounted E :=
  let storedUser := getItem "user" (state m) in
  let accessToken := getItem "accessToken" (state m) in
  let m :=
    if truthy storedUser && truthy accessToken then
      let '(_, m) := refreshTokenIfNeeded now m in
      match JSON_parse (default "" storedUser) with
      | Some u => with_state (setUser u (state m)) m
      | None =>
          (* catch *)
          with_state (removeItem "refreshToken"
                        (removeItem "accessToken" (removeItem "user" (state m)))) m
      end
    else m in
  (* finally *)
  {| state := state m; isLoading := false; refresh_calls := refresh_calls m |}.

End Mount.

End AuthMount.

(* ------------------------------------------------------------------ *)
(** ** The endpoints of [ApiService] the authentication context calls

    [api.login] and [api.getCurrentUser] go through the client, so
    through both interceptors. *)

Module ApiEndpoints.
Import ApiService.

(** What axios does with bodies: the text of [{ email, password }] on
    the way out, and [response.data], the envelope read from the body of a
    response, on the way in. *)
Class Body : Type := {
  credentials : string → string → string;
  login_envelope : string → AuthProvider.ServiceResponse AuthProvider.LoginData;
  user_envelope : string → AuthProvider.ServiceResponse AuthProvider.User;
}.

Section Endpoints.
Context `{Jwt.Decoder} {E : Type} `{Network E} `{Body}.

(** The headers [axios.create] gives every request of the client. *)
Definition default_headers : option (gmap string string) :=
  Some {[ "Content-Type" := "application/json" ]}.

(** [this.api.post(url, body)] and [this.api.get(url)], as requests. *)
Definition post (url body : string) : Config :=
  {| url := url; body := body; headers := default_headers; _retry := false |}.

Definition get (url : string) : Config :=
  {| url := url; body := ""; headers := default_headers; _retry := false |}.

(** [await this.api(config)]: the request and at most one replay, which
    carries [_retry], so two levels of calls. *)
Definition await_request (config : Config) (w : World E) : Settled Response * World E :=
  default (Rejected (AxiosError None), w) (request 2 config w).

(** [return response.data]. *)
Definition response_data {A : Type} (envelope : string → A) (result : Settled Response)
  : Settled A :=
  match result with
  | Fulfilled response => Fulfilled (envelope (data response))
  | Rejected error => Rejected error
  end.

Definition login (email password : string) (w : World E)
  : Settled (AuthProvider.ServiceResponse AuthProvider.LoginData) * World E :=
  let '(result, w) := await_request (post "/auth/v1/login" (credentials email password)) w in
  (response_data login_envelope result, w).

Definition getCurrentUser (w : World E)
  : Settled (AuthProvider.ServiceResponse AuthProvider.User) * World E :=
  let '(result, w) := await_request (get "/auth/v1/me") w in
  (response_data user_envelope result, w).

(** The client as the [api] of the authentication context. They share
    the [localStorage] of the browser: a call runs on the storage of the
    context and hands back the storage it leaves. *)
Definition client : AuthProvider.Api (World E) := {|
  AuthProvider.api_login email password storage w :=
    let '(result, w') := login email password (set_storage storage w) in
    (result, localStorage w', w');
  AuthProvider.api_getCurrentUser storage w :=
    let '(result, w') := getCurrentUser (set_storage storage w) in
    (result, localStorage w', w');
|}.

End Endpoints.

End ApiEndpoints.

(* ------------------------------------------------------------------ *)
(** ** The segments of a token *)

Module JwtSegments.

(** A text without a dot: one segment of a token. *)
Fixpoint dotless (s : string) : bool :=
  match s with
  | EmptyString => true
  | String c s' => negb (Ascii.eqb c ".") && dotless s'
  end.

(** A token of three segments, [header.payload.signature]. *)
Definition token_of (header payload signature : string) : string :=
  header +:+ "." +:+ payload +:+ "." +:+ signature.

End JwtSegments.

(* ------------------------------------------------------------------ *)
(** ** Worked examples: a decoder, a scripted network, a JSON codec *)

Module Examples.

(** The payloads of the tokens the examples use, as [atob] and
    [JSON.parse] read them: [{"exp":1700000000}], [{"exp":4102444800}]
    and [{}]. Every other segment of the examples, ["undefined"] among
    them, is no base64 text of a JSON value. *)
Definition example_decode (s : string) : option Jwt.Payload :=
  if String.eqb s "eyJleHAiOjE3MDAwMDAwMDB9" then Some {| Jwt.exp := Some 1700000000%float |}
  else if String.eqb s "eyJleHAiOjQxMDI0NDQ4MDB9" then Some {| Jwt.exp := Some 4102444800%float |}
  else if String.eqb s "e30" then Some {| Jwt.exp := None |}
  else None.

#[export] Instance example_decoder : Jwt.Decoder := {| Jwt.decode := example_decode |}.

(** A scripted outside world: the clock, and the answers the backend
    will give, in order, to refresh calls and to requests of the client.
    When a script runs out the call fails without a response. *)
Record Script : Type := {
  clock : float;
  refresh_answers : list (Settled ApiService.RefreshReply);
  answers : list (Settled ApiService.Response);
}.

Definition script_adapter (config : ApiService.Config) (e : Script)
  : Settled ApiService.Response * Script :=
  match answers e with
  | a :: rest =>
      (a, {| clock := clock e; refresh_answers := refresh_answers e; answers := rest |})
  | [] => (Rejected (AxiosError None), e)
  end.

Definition script_refresh (token : string) (e : Script)
  : Settled ApiService.RefreshReply * Script :=
  match refresh_answers e with
  | a :: rest => (a, {| clock := clock e; refresh_answers := rest; answers := answers e |})
  | [] => (Rejected (AxiosError None), e)
  end.

#[export] Instance script_network : ApiService.Network Script := {|
  ApiService.Date_now := clock;
  ApiService.adapter := script_adapter;
  ApiService.post_refresh_token := script_refresh;
|}.

Definition script (now : float) (refreshes : list (Settled ApiService.RefreshReply))
    (replies : list (Settled ApiService.Response)) : Script :=
  {| clock := now; refresh_answers := refreshes; answers := replies |}.

Definition browser (storage : gmap string string) (path : string) (e : Script)
  : ApiService.World Script :=
  {| ApiService.window_defined := true; ApiService.localStorage := storage;
     ApiService.pathname := path; ApiService.navigations := [];
     ApiService.calls := []; ApiService.env := e |}.

Definition json_headers : option (gmap string string) :=
  Some {[ "Content-Type" := "application/json" ]}.

Definition post_login : ApiService.Config :=
  {| ApiService.url := "/auth/v1/login"; ApiService.body := "credentials";
     ApiService.headers := json_headers; ApiService._retry := false |}.

Definition get_businesses : ApiService.Config :=
  {| ApiService.url := "/businesses"; ApiService.body := "";
     ApiService.headers := json_headers; ApiService._retry := false |}.

Definition unauthorized : Settled ApiService.Response := Rejected (AxiosError (Some 401%Z)).

Definition ok (text : string) : Settled ApiService.Response :=
  Fulfilled {| ApiService.status := 200; ApiService.data := text |}.

Definition new_tokens (access : string) (refresh : option string)
  : Settled ApiService.RefreshReply :=
  Fulfilled {| ApiService.reply_status := Some "success";
               ApiService.reply_message := None;
               ApiService.reply_tokens :=
                 Some {| ApiService.accessToken := access;
                         ApiService.refreshToken := refresh |} |}.

(** A user on the login page, not logged in, whose request is answered
    401: wrong credentials, say. *)
Definition on_login_page : ApiService.World Script :=
  browser ∅ "/login" (script 1700000000000 [] [unauthorized]).

(** A logged-in user whose access token is no JWT, so is always taken as
    expiring soon, while the refresh endpoint cannot be reached. *)
Definition stale_session : ApiService.World Script :=
  browser {[ "accessToken" := "stale-token"; "refreshToken" := "r1" ]} "/favorites"
          (script 1700000000000 [] [ok "[]"]).

(** The same without a refresh token. *)
Definition stale_without_refresh : ApiService.World Script :=
  browser {[ "accessToken" := "stale-token" ]} "/favorites"
          (script 1700000000000 [] [ok "[]"]).

(** A stand-in for [JSON] on the profiles of the examples, which have an
    id, a role and a name: [id:role:name] is the text of a profile, [null]
    is the text of [null], and no other text parses. *)
Definition example_stringify (u : AuthProvider.User) : string :=
  AuthProvider.id u +:+ ":" +:+ default "" (AuthProvider.role u)
  +:+ ":" +:+ default "" (AuthProvider.name u).

Definition example_parse (text : string) : option (option AuthProvider.User) :=
  if String.eqb text "null" then Some None
  else
    match Jwt.split ":" text with
    | [i; r; n] =>
        Some (Some {| AuthProvider.id := i; AuthProvider.name := Some n;
                      AuthProvider.email := None; AuthProvider.role := Some r |})
    | _ => None
    end.

#[export] Instance example_json : AuthProvider.Json := {|
  AuthProvider.JSON_stringify := example_stringify;
  AuthProvider.JSON_parse := example_parse;
|}.

Definition profile (i r n : string) : AuthProvider.User :=
  {| AuthProvider.id := i; AuthProvider.name := Some n; AuthProvider.email := None;
     AuthProvider.role := Some r |}.

(** A backend that knows one account and answers [getCurrentUser] from a
    script; the client leaves [localStorage] alone. *)
Definition example_login (email password : string)
  : AuthProvider.ServiceResponse AuthProvider.LoginData :=
  if String.eqb email "ana@example.com" && String.eqb password "secret" then
    {| AuthProvider.status := "success"; AuthProvider.message := None;
       AuthProvider.data :=
         Some {| AuthProvider.tokens :=
                   {| AuthProvider.accessToken := "h.eyJleHAiOjQxMDI0NDQ4MDB9.s";
                      AuthProvider.refreshToken := "r1" |};
                 AuthProvider.user_data := profile "7" "CUSTOMER" "Ana" |} |}
  else
    {| AuthProvider.status := "error"; AuthProvider.message := Some "Invalid credentials";
       AuthProvider.data := None |}.

Definition Backend : Type := list (Settled (AuthProvider.ServiceResponse AuthProvider.User)).

Definition example_getCurrentUser (m : gmap string string) (e : Backend)
  : Settled (AuthProvider.ServiceResponse AuthProvider.User) * gmap string string * Backend :=
  match e with
  | a :: rest => (a, m, rest)
  | [] => (Rejected (AxiosError None), m, [])
  end.

#[export] Instance example_api : AuthProvider.Api Backend := {|
  AuthProvider.api_login email password m e := (Fulfilled (example_login email password), m, e);
  AuthProvider.api_getCurrentUser := example_getCurrentUser;
|}.

Definition current_user (u : AuthProvider.User)
  : Settled (AuthProvider.ServiceResponse AuthProvider.User) :=
  Fulfilled {| AuthProvider.status := "success"; AuthProvider.message := None;
               AuthProvider.data := Some u |}.

Definition session (storage : gmap string string) (u : option AuthProvider.User) (e : Backend)
  : AuthProvider.State Backend :=
  {| AuthProvider.localStorage := storage; AuthProvider.user := u;
     AuthProvider.api_calls := []; AuthProvider.outside := e |}.

Definition logged_out : AuthProvider.State Backend := session ∅ None [].

(** Ana, a customer, logged in; the role check ran once. *)
Definition logged_in (e : Backend) : AuthProvider.State Backend :=
  session {[ "accessToken" := "h.eyJleHAiOjQxMDI0NDQ4MDB9.s"; "refreshToken" := "r1";
             "user" := "7:CUSTOMER:Ana"; "lastRoleCheck" := "1700000000000" ]}
          (Some (profile "7" "CUSTOMER" "Ana")) e.

End Examples.

(* ------------------------------------------------------------------ *)
(** ** More worked examples: a thread, a walk over the map, a reload *)

Module MoreExamples.
Import Examples.

(** A main discussion with two replies; the first has a reply that has a
    reply of its own. Replies 1 and 2 are toggled on. *)
Definition thread : Replies.Discussion :=
  Replies.mkDiscussion 10 "post"
    (Some [ Replies.mkDiscussion 1 "a"
              (Some [ Replies.mkDiscussion 2 "b"
                        (Some [ Replies.mkDiscussion 3 "c" None ]) ]);
            Replies.mkDiscussion 4 "d" (Some []) ]).

Definition opened : gmap Z bool := {[ 1%Z := true; 2%Z := true ]}.

(** Lapu-Lapu city hall, then Cebu city across the channel, then the
    airport. *)
Definition walk : list MapPicker.MapEvent :=
  [ MapPicker.Click 10.3103 123.9494; MapPicker.Click 10.3157 123.8854;
    MapPicker.Click 10.3075 123.9794 ].

(** A logged-in browser whose next request is answered by a server
    error; the role check ran once. *)
Definition failing_server : ApiService.World Script :=
  browser {[ "accessToken" := "h.eyJleHAiOjQxMDI0NDQ4MDB9.s"; "refreshToken" := "r1";
             "lastRoleCheck" := "1700000000000" ]} "/favorites"
          (script 1700000000000 [] [Rejected (AxiosError (Some 500%Z))]).

Definition fresh_reply : ApiService.RefreshReply :=
  {| ApiService.reply_status := Some "success"; ApiService.reply_message := None;
     ApiService.reply_tokens :=
       Some {| ApiService.accessToken := "h.eyJleHAiOjQxMDI0NDQ4MDB9.t";
               ApiService.refreshToken := Some "r2" |} |}.

(** A logged-in browser whose access token the backend no longer takes:
    the request is answered 401, the refresh succeeds, and the replay is
    answered 401 again. *)
Definition twice_unauthorized : ApiService.World Script :=
  browser {[ "accessToken" := "h.eyJleHAiOjQxMDI0NDQ4MDB9.s"; "refreshToken" := "r1";
             "user" := "7:CUSTOMER:Ana"; "lastRoleCheck" := "1700000000000" ]} "/favorites"
          (script 1700000000000 [Fulfilled fresh_reply] [unauthorized; unauthorized]).

(** The same request made while rendering on the server. *)
Definition on_server : ApiService.World Script :=
  {| ApiService.window_defined := false; ApiService.localStorage := ∅;
     ApiService.pathname := ""; ApiService.navigations := [];
     ApiService.calls := []; ApiService.env := script 1700000000000 [] [unauthorized] |}.

(** A backend whose refresh endpoint is out of reach. *)
#[export] Instance refresh_out_of_reach : AuthMount.RefreshApi unit := {|
  AuthMount.api_refreshToken token m e := (Rejected (AxiosError None), m, e);
|}.

Definition empty_state : AuthProvider.State unit :=
  {| AuthProvider.localStorage := ∅; AuthProvider.user := None;
     AuthProvider.api_calls := []; AuthProvider.outside := tt |}.

Definition ana_tokens : AuthProvider.AuthTokens :=
  {| AuthProvider.accessToken := "h.eyJleHAiOjE3MDAwMDAwMDB9.s";
     AuthProvider.refreshToken := "r1" |}.

(** A reload that finds a cached profile no [JSON.parse] can read. *)
Definition unreadable : AuthMount.Mounted unit :=
  AuthMount.mount
    {| AuthProvider.localStorage :=
         {[ "accessToken" := "h.eyJleHAiOjQxMDI0NDQ4MDB9.s"; "refreshToken" := "r1";
            "user" := "{" ]};
       AuthProvider.user := None; AuthProvider.api_calls := [];
       AuthProvider.outside := tt |}.

(** Bodies as the examples have them: the credentials as
    [email:password]; the body [welcome] is the envelope of a successful
    login, and every other body an error envelope with that text for its
    message. *)
#[export] Instance example_body : ApiEndpoints.Body := {|
  ApiEndpoints.credentials email password := email +:+ ":" +:+ password;
  ApiEndpoints.login_envelope text :=
    if String.eqb text "welcome" then example_login "ana@example.com" "secret"
    else {| AuthProvider.status := "error"; AuthProvider.message := Some text;
            AuthProvider.data := None |};
  ApiEndpoints.user_envelope text :=
    {| AuthProvider.status := "error"; AuthProvider.message := Some text;
       AuthProvider.data := None |};
|}.

(** The envelope of a refusal. *)
Definition refused : AuthProvider.ServiceResponse AuthProvider.LoginData :=
  {| AuthProvider.status := "error"; AuthProvider.message := Some "Invalid credentials";
     AuthProvider.data := None |}.

Definition context_over (storage : gmap string string) (w : ApiService.World Script)
  : AuthProvider.State (ApiService.World Script) :=
  {| AuthProvider.localStorage := storage; AuthProvider.user := None;
     AuthProvider.api_calls := []; AuthProvider.outside := w |}.

(** Nobody is logged in; the backend refuses the credentials with a 200
    and an error envelope. *)
Definition login_refused : AuthProvider.State (ApiService.World Script) :=
  context_over ∅ (browser ∅ "/login" (script 1700000000000 [] [ok "Invalid credentials"])).

(** The same attempt on a browser that still holds the tokens of an
    earlier session, the access token stale, while the refresh endpoint
    answers with a new pair. *)
Definition login_refused_over_stale_session : AuthProvider.State (ApiService.World Script) :=
  context_over {[ "accessToken" := "stale-token"; "refreshToken" := "r1" ]}
    (browser ∅ "/login"
       (script 1700000000000 [Fulfilled fresh_reply] [ok "Invalid credentials"])).

End MoreExamples.

(* ================================================================== *)
(** * Part II: theorems *)
(* ================================================================== *)

(* ------------------------------------------------------------------ *)
(** ** [countTotalReplies] *)

Section RepliesFacts.
Import Replies.

(** Induction over reply trees, with the hypothesis at hand for every
    reply of the node. *)
Lemma Discussion_tree_ind (P : Discussion → Prop) :
  (∀ i c, P (mkDiscussion i c None)) →
  (∀ i c rs, Forall P rs → P (mkDiscussion i c (Some rs))) →
  ∀ d, P d.
Proof.
  intros Hnone Hsome.
  fix IH 1. intros [i c [rs|]]; [|apply Hnone].
  apply Hsome. induction rs as [|r rs IHrs]; constructor; [apply IH | exact IHrs].
Qed.

(** The recursive call of the source: [countNested] is
    [countTotalReplies] on the replies of the node. *)
Lemma countNested_unfold (reply : Discussion) :
  countNested reply = countTotalReplies (replies reply).
Proof. destruct reply as [i c [[|r rs]|]]; reflexivity. Qed.

(** [countTotalReplies] satisfies the equation the source defines it by. *)
Lemma countTotalReplies_reduce (l : list Discussion) :
  countTotalReplies (Some l)
  = fold_left (fun count reply => count + 1 + countTotalReplies (replies reply)) l 0.
Proof.
  assert (Hext : ∀ (k : list Discussion) acc,
    fold_left (step countNested) k acc
    = fold_left (fun count reply => count + 1 + countTotalReplies (replies reply)) k acc).
  { induction k as [|r k IH]; intros acc; [reflexivity|].
    simpl. rewrite IH. unfold step. by rewrite countNested_unfold. }
  destruct l as [|r l]; [reflexivity|]. apply Hext.
Qed.

Lemma fold_step_acc (inner : Discussion → nat) (l : list Discussion) (acc : nat) :
  fold_left (step inner) l acc = acc + fold_left (step inner) l 0.
Proof.
  revert acc. induction l as [|r l IH]; intros acc; simpl.
  - lia.
  - rewrite (IH (step inner acc r)), (IH (step inner 0 r)). unfold step. lia.
Qed.

Lemma fold_step_length (l : list Discussion) :
  Forall (fun r => countNested r = length (descendants r)) l →
  fold_left (step countNested) l 0 = length (flat_map (fun r => r :: descendants r) l).
Proof.
  induction 1 as [|r l Hr _ IH]; [reflexivity|].
  simpl. rewrite fold_step_acc, IH, length_app. unfold step. rewrite Hr. lia.
Qed.

Lemma countNested_descendants (d : Discussion) :
  countNested d = length (descendants d).
Proof.
  induction d as [i c|i c rs IH] using Discussion_tree_ind; [reflexivity|].
  destruct rs as [|r rs]; [reflexivity|].
  change (countNested (mkDiscussion i c (Some (r :: rs))))
    with (fold_left (step countNested) (r :: rs) 0).
  by rewrite fold_step_length.
Qed.

(** C9. For every finite reply tree [countTotalReplies] returns the number
    of reply nodes in it, every direct reply and every nested descendant
    counted once; it returns [0] for an undefined and for an empty reply
    list. *)
Theorem countTotalReplies_counts_every_reply (rs : option (list Discussion)) :
  countTotalReplies rs = length (all_replies rs)
  ∧ countTotalReplies None = 0
  ∧ countTotalReplies (Some []) = 0.
Proof.
  split; [|done].
  destruct rs as [[|r l]|]; [reflexivity| |reflexivity].
  apply fold_step_length, Forall_forall. intros d _. apply countNested_descendants.
Qed.

(** A thread of two replies, the first with a reply that has a reply of
    its own: four replies in all. *)
Example countTotalReplies_thread :
  countTotalReplies
    (Some [ mkDiscussion 1 "a" (Some [ mkDiscussion 2 "b" (Some [ mkDiscussion 3 "c" None ]) ]);
            mkDiscussion 4 "d" (Some []) ]) = 4.
Proof. reflexivity. Qed.

End RepliesFacts.

(* ------------------------------------------------------------------ *)
(** ** The map picker *)

Section MapPickerFacts.
Import MapPicker.

Lemma isWithinBounds_inside (lat lng : float) :
  isWithinBounds lat lng = true ↔ inside_island lat lng.
Proof.
  unfold isWithinBounds, inside_island, geb. simpl.
  rewrite !andb_true_iff. tauto.
Qed.

(** C10. A click calls [onLocationSelect] at most once, with the clicked
    coordinates, and only when they lie inside the island bounding box; a
    click outside the box never calls it. *)
Theorem click_selects_only_inside_bounds (disabled : bool) (lat lng : float) (st : MapState) :
  let st' := handle disabled (Click lat lng) st in
  (selected st' = selected st
   ∨ (selected st' = selected st ++ [(lat, lng)] ∧ inside_island lat lng))
  ∧ (¬ inside_island lat lng → selected st' = selected st).
Proof.
  simpl. destruct disabled; [by auto|].
  unfold on_click. destruct (isWithinBounds lat lng) eqn:Hin; simpl.
  - apply isWithinBounds_inside in Hin. split; [by right | by intros []].
  - split; [by left | done].
Qed.

(** An enabled picker reports every click inside the box. *)
Lemma click_inside_selects (lat lng : float) (st : MapState) :
  inside_island lat lng →
  selected (handle false (Click lat lng) st) = selected st ++ [(lat, lng)].
Proof.
  intros Hin%isWithinBounds_inside. simpl. unfold on_click. by rewrite Hin.
Qed.

(** A drag is not a click: the [dragend] handler of a draggable marker
    reports where the marker was dropped, and checks no bounds. *)
Lemma dragend_selects_unchecked
    (disabled : bool) (lat lng : float) (st : MapState) (m : Marker) :
  markerRef st = Some m → draggable m = true →
  selected (handle disabled (DragEnd lat lng) st) = selected st ++ [(lat, lng)].
Proof. intros Hm Hd. simpl. by rewrite Hm, Hd. Qed.

(** Lapu-Lapu city hall is inside; Cebu city, across the channel, and a
    click with no number for a latitude are not. *)
Example click_in_lapu_lapu :
  selected (handle false (Click 10.3103 123.9494) (initial false None None))
  = [(10.3103, 123.9494)%float].
Proof. vm_compute. reflexivity. Qed.

Example click_in_cebu_city :
  selected (handle false (Click 10.3157 123.8854) (initial false None None)) = [].
Proof. vm_compute. reflexivity. Qed.

Example click_nan :
  selected (handle false (Click nan 123.95) (initial false None None)) = [].
Proof. vm_compute. reflexivity. Qed.

End MapPickerFacts.

(* ------------------------------------------------------------------ *)
(** ** Token expiry *)

Section JwtFacts.
Import Jwt.
Context `{Decoder}.

Lemma getTokenExpiration_undecodable (token : string) :
  no_decodable_expiry token → getTokenExpiration token = None.
Proof.
  unfold getTokenExpiration. intros [Hd | (payload & Hd & He)]; rewrite Hd; [done|].
  by rewrite He.
Qed.

(** What [getTokenExpiration] returns is the decoded expiry time; it
    returns [null] for an [exp] of [0] or [NaN] as for a missing one. *)
Lemma getTokenExpiration_decoded (token : string) (expiration : float) :
  getTokenExpiration token = Some expiration → decoded_expiry token = Some expiration.
Proof.
  unfold getTokenExpiration, decoded_expiry.
  destruct (decode (segment token)) as [payload|]; [simpl|done].
  destruct (exp payload) as [e|]; [simpl|done].
  by destruct (truthy_number e).
Qed.

Lemma decoded_expiry_cases (token : string) (expiry : float) :
  decoded_expiry token = Some expiry →
  getTokenExpiration token = Some expiry ∨ getTokenExpiration token = None.
Proof.
  unfold getTokenExpiration, decoded_expiry.
  destruct (decode (segment token)) as [payload|]; [simpl|done].
  destruct (exp payload) as [e|]; [simpl|done].
  destruct (truthy_number e); auto.
Qed.

(** C4. [isTokenExpiringSoon] returns true for an absent token ([null], or
    the empty string, which is as falsy), for a token with no decodable
    expiry claim (the payload cannot be decoded, or has no [exp] field),
    and for a token whose decoded expiry time lies inside the two-minute
    lookahead window of the current time. *)
Theorem isTokenExpiringSoon_classifies (now : float) (token : option string) :
  truthy token = false
  ∨ (∃ t, token = Some t
          ∧ (no_decodable_expiry t
             ∨ ∃ expiry, decoded_expiry t = Some expiry ∧ within_lookahead now expiry)) →
  isTokenExpiringSoon now token = true.
Proof.
  intros [Hnull | (t & -> & Hcase)].
  - destruct token as [t|]; [simpl in *|done]. by rewrite Hnull.
  - simpl. destruct (truthy_string t); [simpl|done].
    destruct Hcase as [Hno | (expiry & Hexp & Hwin)].
    + by rewrite getTokenExpiration_undecodable.
    + destruct (decoded_expiry_cases _ _ Hexp) as [-> | ->]; [|done].
      destruct (truthy_number expiry); [simpl|done]. exact Hwin.
Qed.

End JwtFacts.

Section JwtExamples.
Import Examples.

(** A token that expires fifty seconds from now is expiring soon. *)
Lemma isTokenExpiringSoon_classifies_witness :
  Jwt.decoded_expiry "h.eyJleHAiOjE3MDAwMDAwMDB9.s" = Some 1700000000000%float
  ∧ Jwt.within_lookahead 1699999950000 1700000000000
  ∧ Jwt.isTokenExpiringSoon 1699999950000 (Some "h.eyJleHAiOjE3MDAwMDAwMDB9.s") = true.
Proof.
  split; [reflexivity|]. split; [reflexivity|].
  apply isTokenExpiringSoon_classifies. right.
  exists "h.eyJleHAiOjE3MDAwMDAwMDB9.s". split; [reflexivity|]. right.
  exists 1700000000000%float. split; reflexivity.
Defined.

(** A token good until the year 2100 is not; one without dots, one with
    an empty payload object and an expired one are. *)
Example token_good_until_2100 :
  Jwt.isTokenExpiringSoon 1700000000000 (Some "h.eyJleHAiOjQxMDI0NDQ4MDB9.s") = false.
Proof. reflexivity. Qed.

Example token_without_dots :
  Jwt.getTokenExpiration "stale-token" = None
  ∧ Jwt.isTokenExpiringSoon 1700000000000 (Some "stale-token") = true.
Proof. split; reflexivity. Qed.

Example token_without_exp :
  Jwt.isTokenExpiringSoon 1700000000000 (Some "h.e30.s") = true.
Proof. reflexivity. Qed.

Example token_expired :
  Jwt.isTokenExpiringSoon 1800000000000 (Some "h.eyJleHAiOjE3MDAwMDAwMDB9.s") = true.
Proof. reflexivity. Qed.

End JwtExamples.

(* ------------------------------------------------------------------ *)
(** ** The interceptors of the HTTP client *)

Section ClientFacts.
Import ApiService.
Context `{Jwt.Decoder} {E : Type} `{Network E}.

Lemma count_calls_app (p : NetCall → bool) (l k : list NetCall) :
  count_calls p (l ++ k) = count_calls p l + count_calls p k.
Proof. unfold count_calls. by rewrite List.filter_app, length_app. Qed.

(** What storage writes, navigation and header updates leave alone. *)
Lemma store_tokens_frame (t : Tokens) (w : World E) :
  calls (store_tokens t w) = calls w ∧ env (store_tokens t w) = env w
  ∧ navigations (store_tokens t w) = navigations w
  ∧ pathname (store_tokens t w) = pathname w
  ∧ window_defined (store_tokens t w) = window_defined w.
Proof.
  unfold store_tokens. destruct (refreshToken t) as [r|]; [destruct (truthy_string r)|]; done.
Qed.

Lemma refresh_failed_calls (refreshError : JsError) (w : World E) :
  calls (refresh_failed refreshError w).2 = calls w.
Proof.
  unfold refresh_failed. simpl. destruct (window_defined w); [|done].
  simpl. by case_decide.
Qed.

Lemma set_authorization_retry (token : string) (config : Config) :
  _retry (set_authorization token config) = _retry config.
Proof. unfold set_authorization. by destruct (headers config). Qed.

(** The request interceptor sends nothing but at most one proactive
    refresh, and leaves the [_retry] flag as it is. *)
Lemma request_interceptor_calls (config : Config) (w : World E) :
  ∃ sent, calls (request_interceptor config w).2 = calls w ++ sent
          ∧ (sent = [] ∨ ∃ token, sent = [SentRefresh Proactive token])
          ∧ _retry (request_interceptor config w).1 = _retry config.
Proof.
  unfold request_interceptor.
  destruct (window_defined w); [|exists []; by rewrite app_nil_r; auto].
  destruct (truthy (getItem "accessToken" w) && truthy (getItem "refreshToken" w)
            && Jwt.isTokenExpiringSoon (Date_now (env w)) (getItem "accessToken" w)).
  - unfold proactive_refresh, post_refresh.
    destruct (post_refresh_token _ (env w)) as [[reply|err] e].
    + exists [SentRefresh Proactive (default "" (getItem "refreshToken" w))].
      destruct (refreshed_tokens reply) as [t|]; simpl.
      * destruct (store_tokens_frame t
          (sent (SentRefresh Proactive (default "" (getItem "refreshToken" w))) e w)) as [-> _].
        destruct (truthy_string (accessToken t)); simpl;
          rewrite ?set_authorization_retry; eauto.
      * destruct (getItem "accessToken" w) as [t|]; [destruct (truthy_string t)|]; simpl;
          rewrite ?set_authorization_retry; eauto.
    + exists [SentRefresh Proactive (default "" (getItem "refreshToken" w))].
      destruct (getItem "accessToken" w) as [t|]; [destruct (truthy_string t)|]; simpl;
        rewrite ?set_authorization_retry; eauto.
  - exists []. rewrite app_nil_r.
    destruct (getItem "accessToken" w) as [t|]; [destruct (truthy_string t)|]; simpl;
      rewrite ?set_authorization_retry; eauto.
Qed.

Lemma interceptor_sent_counts (sent : list NetCall) :
  sent = [] ∨ (∃ token, sent = [SentRefresh Proactive token]) →
  reactive_refreshes sent = 0 ∧ requests_sent sent = 0 ∧ proactive_refreshes sent ≤ 1.
Proof. intros [-> | [token ->]]; cbn; lia. Qed.

(** A request that carries the [_retry] flag is sent once and answered as
    the network answers it: whatever the answer, a 401 included, the
    response interceptor neither refreshes nor replays. *)
Lemma request_retried (config : Config) (w : World E) :
  _retry config = true →
  ∃ result w' sent,
    (∀ fuel, request (S fuel) config w = Some (result, w'))
    ∧ calls w' = calls w ++ sent
    ∧ reactive_refreshes sent = 0
    ∧ requests_sent sent = 1.
Proof.
  intros Hretry.
  destruct (request_interceptor_calls config w) as (pro & Hcalls & Hpro & Hflag).
  destruct (interceptor_sent_counts pro Hpro) as (Hre & Hrq & _).
  simpl. destruct (request_interceptor config w) as [c1 w1]. simpl in *.
  unfold send. destruct (adapter c1 (env w1)) as [[response|error] e].
  - eexists _, _, (pro ++ [SentRequest c1]). split; [done|]. simpl.
    rewrite Hcalls, <- app_assoc. split; [done|].
    unfold reactive_refreshes, requests_sent in *. rewrite !count_calls_app, Hre, Hrq. done.
  - unfold response_rejected. rewrite Hflag, Hretry, andb_false_r.
    eexists _, _, (pro ++ [SentRequest c1]). split; [done|]. simpl.
    rewrite Hcalls, <- app_assoc. split; [done|].
    unfold reactive_refreshes, requests_sent in *. rewrite !count_calls_app, Hre, Hrq. done.
Qed.

(** C1. Every request issued through the client completes, and in its
    whole run, replay included, the reactive refresh is attempted at most
    once and the request goes out at most twice (the original and one
    replay). A request that already carries the [_retry] flag, as the
    replay does, goes out once and triggers no reactive refresh, whatever
    it is answered, a 401 included. *)
Theorem reactive_refresh_at_most_once (config : Config) (w : World E) :
  ∃ result w' sent,
    (∀ fuel, 2 ≤ fuel → request fuel config w = Some (result, w'))
    ∧ calls w' = calls w ++ sent
    ∧ reactive_refreshes sent ≤ 1
    ∧ requests_sent sent ≤ 2
    ∧ (_retry config = true → reactive_refreshes sent = 0 ∧ requests_sent sent = 1).
Proof.
  destruct (_retry config) eqn:Hretry.
  { destruct (request_retried config w Hretry) as (result & w' & sent & Hrun & Hcalls & Hre & Hrq).
    exists result, w', sent. split; [|rewrite Hre, Hrq; auto with lia].
    intros [|fuel] Hfuel; [lia|]. apply Hrun. }
  destruct (request_interceptor_calls config w) as (pro & Hcalls & Hpro & Hflag).
  destruct (interceptor_sent_counts pro Hpro) as (Hre & Hrq & _).
  assert (Hdone : ∀ (result : Settled Response) c1 (w1 w2 : World E) tail,
    calls w1 = calls w ++ pro →
    calls w2 = (calls w1 ++ [SentRequest c1]) ++ tail →
    reactive_refreshes tail ≤ 1 → requests_sent tail ≤ 1 →
    calls w2 = calls w ++ (pro ++ SentRequest c1 :: tail)
    ∧ reactive_refreshes (pro ++ SentRequest c1 :: tail) ≤ 1
    ∧ requests_sent (pro ++ SentRequest c1 :: tail) ≤ 2
    ∧ (false = true →
       reactive_refreshes (pro ++ SentRequest c1 :: tail) = 0
       ∧ requests_sent (pro ++ SentRequest c1 :: tail) = 1)).
  { intros _ c1 w1 w2 tail Hw1 Hw2 Htail Hreq. split.
    - rewrite Hw2, Hw1, <- !app_assoc. done.
    - unfold reactive_refreshes, requests_sent in *.
      change (SentRequest c1 :: tail) with ([SentRequest c1] ++ tail).
      rewrite !count_calls_app, Hre, Hrq. cbn. split; [lia|]. split; [lia|done]. }
  destruct (request_interceptor config w) as [c1 w1] eqn:Hint. simpl in Hcalls, Hflag.
  destruct (send c1 w1) as [[response|error] w2] eqn:Hsend.
  - (* answered *)
    exists (Fulfilled response), w2, (pro ++ [SentRequest c1]). split.
    + intros [|fuel] Hfuel; [lia|]. simpl. by rewrite Hint, Hsend.
    + unfold send in Hsend. destruct (adapter c1 (env w1)) as [r e]. simplify_eq.
      apply (Hdone (Fulfilled response) c1 w1 _ []); cbn; rewrite ?app_nil_r; auto.
  - (* rejected: the response interceptor *)
    assert (Hw2 : calls w2 = calls w1 ++ [SentRequest c1]).
    { unfold send in Hsend. destruct (adapter c1 (env w1)) as [r e]. by simplify_eq. }
    assert (Hstep : ∀ fuel, request (S (S fuel)) config w
                            = response_rejected (request (S fuel)) error c1 w2).
    { intros fuel. change (request (S (S fuel)) config w)
        with (let '(config, w) := request_interceptor config w in
              match send config w with
              | (Fulfilled response, w) => Some (Fulfilled response, w)
              | (Rejected error, w) => response_rejected (request (S fuel)) error config w
              end).
      by rewrite Hint, Hsend. }
    unfold response_rejected in Hstep.
    destruct (bool_decide (response_status error = Some 401%Z) && negb (_retry c1)) eqn:H401;
      [|exists (Rejected error), w2, (pro ++ [SentRequest c1]); split;
        [intros [|[|fuel]] Hfuel; try lia; apply Hstep
        |apply (Hdone (Rejected error) c1 w1 _ []); cbn; rewrite ?app_nil_r; auto]].
    destruct (window_defined w2);
      [|exists (Rejected error), w2, (pro ++ [SentRequest c1]); split;
        [intros [|[|fuel]] Hfuel; try lia; apply Hstep
        |apply (Hdone (Rejected error) c1 w1 _ []); cbn; rewrite ?app_nil_r; auto]].
    destruct (negb (truthy (getItem "refreshToken" w2))).
    { eexists _, _, (pro ++ [SentRequest c1]); split;
        [intros [|[|fuel]] Hfuel; try lia; apply Hstep
        |apply (Hdone (Rejected error) c1 w1 _ []); cbn; rewrite ?app_nil_r; auto]. }
    unfold post_refresh in Hstep.
    set (token := default "" (getItem "refreshToken" w2)) in *.
    destruct (post_refresh_token token (env w2)) as [[reply|refreshError] e].
    + destruct (refreshed_tokens reply) as [t|].
      * (* the replay *)
        set (c2 := set_authorization (accessToken t) (mark_retried c1)) in *.
        set (w3 := store_tokens t (sent (SentRefresh Reactive token) e w2)) in *.
        destruct (request_retried c2 w3) as (result & w' & tail & Hrun & Htail & Hre' & Hrq').
        { unfold c2. by rewrite set_authorization_retry. }
        exists result, w', (pro ++ SentRequest c1 :: SentRefresh Reactive token :: tail). split.
        { intros [|[|fuel]] Hfuel; try lia. rewrite Hstep. apply Hrun. }
        apply (Hdone result c1 w1 w' (SentRefresh Reactive token :: tail)); auto.
        -- rewrite Htail. unfold w3. destruct (store_tokens_frame t
             (sent (SentRefresh Reactive token) e w2)) as [-> _].
           simpl. rewrite Hw2, <- !app_assoc. done.
        -- change (SentRefresh Reactive token :: tail)
             with ([SentRefresh Reactive token] ++ tail).
           unfold reactive_refreshes in *. rewrite count_calls_app, Hre'. cbn. lia.
        -- change (SentRefresh Reactive token :: tail)
             with ([SentRefresh Reactive token] ++ tail).
           unfold requests_sent in *. rewrite count_calls_app, Hrq'. cbn. lia.
      * eexists _, _, (pro ++ SentRequest c1 :: [SentRefresh Reactive token]). split.
        { intros [|[|fuel]] Hfuel; try lia. apply Hstep. }
        apply (Hdone (Rejected error) c1 w1 _ [SentRefresh Reactive token]); auto.
        etrans; [exact (refresh_failed_calls SyntaxError (sent (SentRefresh Reactive token) e w2))|].
        simpl. by rewrite Hw2.
    + eexists _, _, (pro ++ SentRequest c1 :: [SentRefresh Reactive token]). split.
      { intros [|[|fuel]] Hfuel; try lia. apply Hstep. }
      apply (Hdone (Rejected error) c1 w1 _ [SentRefresh Reactive token]); auto.
      etrans; [exact (refresh_failed_calls SyntaxError (sent (SentRefresh Reactive token) e w2))|].
        simpl. by rewrite Hw2.
Qed.

(** *** The three ways a first 401 ends *)

Lemma clear_session_absent (w : World E) :
  localStorage (clear_session w) !! "accessToken" = None
  ∧ localStorage (clear_session w) !! "refreshToken" = None
  ∧ localStorage (clear_session w) !! "user" = None.
Proof. unfold clear_session, removeItem. simpl. by simplify_map_eq. Qed.

(** A 401 on a request not yet retried, with a refresh token in store:
    one reactive refresh goes out with that token. If it succeeds, the new
    tokens are stored and the request, now flagged and carrying the new
    access token, is handed to the client again. *)
Lemma unauthorized_refresh_succeeds
    (replay : Config → World E → option (Settled Response * World E))
    (error : JsError) (config : Config) (w : World E)
    (refresh : string) (reply : RefreshReply) (e : E) (t : Tokens) :
  response_status error = Some 401%Z → _retry config = false →
  window_defined w = true →
  getItem "refreshToken" w = Some refresh → truthy_string refresh = true →
  post_refresh_token refresh (env w) = (Fulfilled reply, e) →
  refreshed_tokens reply = Some t →
  response_rejected replay error config w
  = replay (set_authorization (accessToken t) (mark_retried config))
           (store_tokens t (sent (SentRefresh Reactive refresh) e w)).
Proof.
  intros H401 Hretry Hwin Hget Htruthy Hpost Hok. unfold response_rejected, post_refresh.
  rewrite H401, Hretry, Hwin, Hget. simpl. rewrite Htruthy. simpl.
  rewrite ?bool_decide_eq_true_2 by done. simpl. by rewrite Hpost, Hok.
Qed.

(** If the refresh fails, by rejection or by a reply that carries no
    tokens, the session keys are cleared and the browser is sent to the
    login page unless it is there already. *)
Lemma unauthorized_refresh_fails
    (replay : Config → World E → option (Settled Response * World E))
    (error : JsError) (config : Config) (w : World E)
    (refresh : string) (result : Settled RefreshReply) (e : E) :
  response_status error = Some 401%Z → _retry config = false →
  window_defined w = true →
  getItem "refreshToken" w = Some refresh → truthy_string refresh = true →
  post_refresh_token refresh (env w) = (result, e) →
  renewed result = None →
  ∃ refreshError w',
    response_rejected replay error config w = Some (Rejected refreshError, w')
    ∧ calls w' = calls w ++ [SentRefresh Reactive refresh]
    ∧ session_cleared w w'
    ∧ navigations w' = navigations w ++ (if decide (pathname w = "/login") then [] else ["/login"]).
Proof.
  intros H401 Hretry Hwin Hget Htruthy Hpost Hno. unfold response_rejected, post_refresh.
  rewrite H401, Hretry, Hwin, Hget. simpl. rewrite Htruthy. simpl.
  rewrite ?bool_decide_eq_true_2 by done. simpl. rewrite Hpost.
  assert (Hfail : ∀ err,
    let w' := (refresh_failed err (sent (SentRefresh Reactive refresh) e w)).2 in
    calls w' = calls w ++ [SentRefresh Reactive refresh]
    ∧ session_cleared w w'
    ∧ navigations w' = navigations w ++ (if decide (pathname w = "/login") then [] else ["/login"])).
  { intros err. unfold refresh_failed, session_cleared. simpl. rewrite Hwin. simpl.
    repeat case_decide; simpl; rewrite ?app_nil_r; done. }
  destruct result as [reply|refreshError]; simpl in Hno.
  - rewrite Hno. eexists _, _. split; [reflexivity|]. apply (Hfail SyntaxError).
  - eexists _, _. split; [reflexivity|]. apply (Hfail SyntaxError).
Qed.

(** Without a refresh token in store no refresh goes out: the session
    keys are cleared and [window.location.href] is set to the login page,
    here whatever the page the browser is on. *)
Lemma unauthorized_without_refresh_token
    (replay : Config → World E → option (Settled Response * World E))
    (error : JsError) (config : Config) (w : World E) :
  response_status error = Some 401%Z → _retry config = false →
  window_defined w = true →
  truthy (getItem "refreshToken" w) = false →
  ∃ w',
    response_rejected replay error config w = Some (Rejected error, w')
    ∧ calls w' = calls w
    ∧ session_cleared w w'
    ∧ navigations w' = navigations w ++ ["/login"].
Proof.
  intros H401 Hretry Hwin Hno. unfold response_rejected.
  rewrite H401, Hretry, Hwin, Hno. simpl. rewrite ?bool_decide_eq_true_2 by done. simpl.
  eexists. split; [reflexivity|]. done.
Qed.

(** *** The request interceptor *)

Lemma set_authorization_header (token : string) (config : Config) :
  is_Some (headers config) →
  authorization (set_authorization token config) = Some (bearer token).
Proof.
  intros [h Hh]. unfold authorization, set_authorization. rewrite Hh. simpl.
  by rewrite lookup_insert_eq.
Qed.

(** Without a refresh token in store the interceptor attempts no
    refresh, expiring token or not: it attaches the stored access token. *)
Lemma no_refresh_token_no_proactive_refresh (config : Config) (w : World E) (token : string) :
  window_defined w = true →
  getItem "accessToken" w = Some token → truthy_string token = true →
  truthy (getItem "refreshToken" w) = false →
  request_interceptor config w = (set_authorization token config, w).
Proof.
  intros Hwin Hget Htruthy Hno. unfold request_interceptor.
  rewrite Hwin, Hget, Hno. simpl. rewrite Htruthy. simpl. by rewrite Htruthy.
Qed.

(** C3, as the code has it. For every outbound request in the browser
    with an access token and a refresh token in store, the access token
    classified as expiring soon, exactly one proactive refresh goes out,
    with the stored refresh token, before the bearer credential is
    attached. If it renews the tokens, the new access token is stored and
    attached. If it fails, by rejection or by a reply without tokens, the
    request is not blocked: nothing is stored, and the request proceeds
    with the access token that was in store attached as its bearer
    credential. *)
Theorem proactive_refresh_before_bearer
    (config : Config) (w : World E) (token refresh : string) :
  window_defined w = true →
  getItem "accessToken" w = Some token → truthy_string token = true →
  getItem "refreshToken" w = Some refresh → truthy_string refresh = true →
  Jwt.isTokenExpiringSoon (Date_now (env w)) (Some token) = true →
  let config' := (request_interceptor config w).1 in
  let w' := (request_interceptor config w).2 in
  calls w' = calls w ++ [SentRefresh Proactive refresh]
  ∧ match renewed (post_refresh_token refresh (env w)).1 with
    | Some t =>
        localStorage w' !! "accessToken" = Some (accessToken t)
        ∧ (truthy_string (accessToken t) = true →
           config' = set_authorization (accessToken t) config)
    | None =>
        localStorage w' = localStorage w
        ∧ config' = set_authorization token config
        ∧ (is_Some (headers config) → authorization config' = Some (bearer token))
    end.
Proof.
  intros Hwin Hget Htruthy Hrget Hrtruthy Hsoon. unfold request_interceptor.
  rewrite Hwin, Hget, Hrget, Hsoon. simpl. rewrite Htruthy, Hrtruthy. simpl.
  unfold proactive_refresh, post_refresh.
  destruct (post_refresh_token refresh (env w)) as [[reply|err] e]; simpl.
  - destruct (refreshed_tokens reply) as [t|]; simpl.
    + destruct (store_tokens_frame t (sent (SentRefresh Proactive refresh) e w)) as [Hc _].
      destruct (truthy_string (accessToken t)); simpl; (split; [exact Hc|]).
      * split; [|done]. unfold store_tokens.
        destruct (refreshToken t) as [r|]; [destruct (truthy_string r)|];
          unfold setItem; simpl; by simplify_map_eq.
      * split; [|done]. unfold store_tokens.
        destruct (refreshToken t) as [r|]; [destruct (truthy_string r)|];
          unfold setItem; simpl; by simplify_map_eq.
    + rewrite Htruthy. simpl. repeat split; auto using set_authorization_header.
  - rewrite Htruthy. simpl. repeat split; auto using set_authorization_header.
Qed.

End ClientFacts.

Section ClientExamples.
Import ApiService Examples.

(** C2, where the code falls short of it. On the login page, with no
    refresh token in store, a request answered 401 sets
    [window.location.href] to the login page all the same: the branch for a
    missing refresh token lacks the check of [window.location.pathname]
    that the branch for a failed refresh makes. *)
Theorem unauthorized_on_login_page_redirects_to_login :
  pathname on_login_page = "/login"
  ∧ getItem "refreshToken" on_login_page = None
  ∧ ∃ w', request 2 post_login on_login_page = Some (unauthorized, w')
          ∧ calls w' = [SentRequest post_login]
          ∧ navigations w' = ["/login"].
Proof. repeat split. eexists. repeat split; vm_compute; reflexivity. Qed.

(** The sibling branch: with a refresh token in store and the refresh
    failing, the same request on the same page causes no navigation. *)
Example failed_refresh_on_login_page_stays :
  let w := browser {[ "refreshToken" := "r1" ]} "/login"
                   (script 1700000000000 [] [unauthorized]) in
  ∃ w', request 2 post_login w = Some (Rejected (AxiosError None), w')
        ∧ calls w' = [SentRequest post_login; SentRefresh Reactive "r1"]
        ∧ localStorage w' !! "refreshToken" = None
        ∧ navigations w' = [].
Proof. eexists. repeat split; vm_compute; reflexivity. Qed.

(** A request answered 401, refreshed, replayed and answered 401 again:
    one reactive refresh, one replay, and the second 401 goes to the
    caller. The replay found the new token not decodable, hence expiring
    soon, and tried a proactive refresh of its own. *)
Example second_unauthorized_goes_to_the_caller :
  let w := browser {[ "accessToken" := "h.eyJleHAiOjQxMDI0NDQ4MDB9.s"; "refreshToken" := "r1" ]}
                   "/favorites"
                   (script 1700000000000 [new_tokens "fresh" (Some "r2")]
                           [unauthorized; unauthorized; ok "never sent"]) in
  ∃ w', request 2 get_businesses w = Some (unauthorized, w')
        ∧ reactive_refreshes (calls w') = 1
        ∧ requests_sent (calls w') = 2
        ∧ localStorage w' !! "accessToken" = Some "fresh"
        ∧ navigations w' = [].
Proof. eexists. repeat split; vm_compute; reflexivity. Qed.

(** C3 as stated fails on the code, twice over. With the refresh
    endpoint out of reach, the proactive refresh of a stale session is
    attempted and fails, and the request then proceeds with the stale
    access token as its bearer credential, not without one. And with no
    refresh token in store, an access token that is expiring soon is
    attached without any refresh being attempted. *)
Lemma failed_proactive_refresh_keeps_the_token :
  (Jwt.isTokenExpiringSoon (Date_now (env stale_session)) (getItem "accessToken" stale_session) = true
   ∧ calls (request_interceptor get_businesses stale_session).2 = [SentRefresh Proactive "r1"]
   ∧ renewed (post_refresh_token "r1" (env stale_session)).1 = None
   ∧ authorization (request_interceptor get_businesses stale_session).1
     = Some "Bearer stale-token"
   ∧ authorization (request_interceptor get_businesses stale_session).1 ≠ None)
  ∧ (Jwt.isTokenExpiringSoon (Date_now (env stale_without_refresh))
       (getItem "accessToken" stale_without_refresh) = true
     ∧ calls (request_interceptor get_businesses stale_without_refresh).2 = []
     ∧ authorization (request_interceptor get_businesses stale_without_refresh).1
       = Some "Bearer stale-token").
Proof.
  assert (Hauth : authorization (request_interceptor get_businesses stale_session).1
                  = Some "Bearer stale-token") by (vm_compute; reflexivity).
  repeat split; try (vm_compute; reflexivity). by rewrite Hauth.
Qed.

(** The amended statement on the stale session: one proactive refresh,
    nothing stored, the stale token attached. *)
Lemma proactive_refresh_before_bearer_witness :
  (window_defined stale_session = true
   ∧ getItem "accessToken" stale_session = Some "stale-token"
   ∧ getItem "refreshToken" stale_session = Some "r1"
   ∧ Jwt.isTokenExpiringSoon (Date_now (env stale_session)) (Some "stale-token") = true)
  ∧ calls (request_interceptor get_businesses stale_session).2
    = calls stale_session ++ [SentRefresh Proactive "r1"]
  ∧ localStorage (request_interceptor get_businesses stale_session).2
    = localStorage stale_session
  ∧ (request_interceptor get_businesses stale_session).1
    = set_authorization "stale-token" get_businesses.
Proof.
  split; [repeat split|].
  pose proof (proactive_refresh_before_bearer get_businesses stale_session
                "stale-token" "r1" eq_refl eq_refl eq_refl eq_refl eq_refl eq_refl) as W.
  cbv zeta in W. destruct W as (Hcalls & Hrest).
  change (renewed (post_refresh_token "r1" (env stale_session)).1) with (@None Tokens) in Hrest.
  destruct Hrest as (Hstore & Hconfig & _). auto.
Defined.

End ClientExamples.

(* ------------------------------------------------------------------ *)
(** ** The authentication context *)

Section ProviderFacts.
Import AuthProvider.
Context `{Json} {E : Type} `{Api E}.

Lemma call_login_frame (email password : string) (s : State E) :
  user (call_login email password s).2 = user s
  ∧ api_calls (call_login email password s).2 = api_calls s ++ [CallLogin email password].
Proof.
  unfold call_login.
  by destruct (api_login email password (localStorage s) (outside s)) as [[result m] e].
Qed.

Lemma payload_none {A : Type} (response : ServiceResponse A) :
  payload response = None ↔ status response ≠ "success" ∨ data response = None.
Proof.
  unfold payload. split.
  - case_bool_decide; [by right | by left].
  - intros [Hs | Hd]; case_bool_decide; done.
Qed.

(** Over any [api]: when [api.login] answers with a response whose
    status is not ['success'], or that carries no data, [login] itself
    writes nothing. It ends in the state in which the call returned, the
    in-memory user as it was, and raises an error whose message is the
    message of the response, or ['Login failed'] when the response has
    none. What the call did to storage on its way is the call's. *)
Lemma login_refusal_is_raised
    (email password : string) (s s1 : State E) (response : ServiceResponse LoginData) :
  call_login email password s = (Fulfilled response, s1) →
  status response ≠ "success" ∨ data response = None →
  ∃ text,
    login email password s = (Rejected (Error text), s1)
    ∧ user s1 = user s
    ∧ (∀ m, message response = Some m → truthy_string m = true → text = m)
    ∧ (truthy (message response) = false → text = "Login failed").
Proof.
  intros Hcall Hinvalid%payload_none. exists (or_else (message response) "Login failed").
  unfold login. rewrite Hcall, Hinvalid. split; [done|]. split.
  - destruct (call_login_frame email password s) as [Hu _]. by rewrite Hcall in Hu.
  - unfold or_else. split.
    + intros m -> Hm. by rewrite Hm.
    + destruct (message response) as [m|]; simpl; [|done]. by intros ->.
Qed.

(** [setAuthData] persists the pair and the profile, whatever was there. *)
Lemma setAuthData_stores (t : AuthTokens) (userData : User) (s : State E) :
  localStorage (setAuthData t userData s)
  = <["user" := JSON_stringify userData]>
      (<["refreshToken" := refreshToken t]> (<["accessToken" := accessToken t]> (localStorage s)))
  ∧ user (setAuthData t userData s) = Some userData.
Proof. done. Qed.

(** C8. After a successful login, that is, a response with status
    ['success'] that carries a token pair, both tokens non-empty, and a
    user profile, session storage holds that access token and that
    refresh token, both non-empty, and the serialized profile under
    [user]; the profile is also the in-memory user. *)
Theorem login_success_stores_session
    (email password : string) (s s1 : State E) (response : ServiceResponse LoginData)
    (d : LoginData) :
  call_login email password s = (Fulfilled response, s1) →
  status response = "success" → data response = Some d →
  truthy_string (accessToken (tokens d)) = true →
  truthy_string (refreshToken (tokens d)) = true →
  let s' := (login email password s).2 in
  (login email password s).1 = Fulfilled ()
  ∧ getItem "accessToken" s' = Some (accessToken (tokens d))
  ∧ getItem "refreshToken" s' = Some (refreshToken (tokens d))
  ∧ truthy (getItem "accessToken" s') = true
  ∧ truthy (getItem "refreshToken" s') = true
  ∧ getItem "user" s' = Some (JSON_stringify (user_data d))
  ∧ user s' = Some (user_data d)
  ∧ isAuthenticated s' = true.
Proof.
  intros Hcall Hstatus Hdata Haccess Hrefresh. unfold login, payload.
  rewrite Hcall, Hstatus, Hdata. simpl.
  unfold getItem, isAuthenticated. simpl. simplify_map_eq. simpl.
  by rewrite Haccess, Hrefresh.
Qed.

(** C7, as the code has it. [logout] removes the three session keys
    [accessToken], [refreshToken] and [user] from storage and leaves every
    other key, [lastRoleCheck] among them, as it was; it clears the
    in-memory user and calls nothing. *)
Theorem logout_clears_session_keys (s : State E) :
  (∀ key, key ∈ session_keys → getItem key (logout s) = None)
  ∧ (∀ key, key ∉ session_keys → getItem key (logout s) = getItem key s)
  ∧ user (logout s) = None
  ∧ api_calls (logout s) = api_calls s
  ∧ outside (logout s) = outside s.
Proof.
  unfold logout, getItem, session_keys. simpl. repeat split.
  - intros key Hkey. rewrite !elem_of_cons, elem_of_nil in Hkey.
    destruct Hkey as [-> | [-> | [-> | []]]]; by simplify_map_eq.
  - intros key Hkey. rewrite !not_elem_of_cons in Hkey.
    destruct Hkey as (? & ? & ? & _). by rewrite !lookup_delete_ne.
Qed.

Lemma call_getCurrentUser_frame (s : State E) :
  user (call_getCurrentUser s).2 = user s
  ∧ api_calls (call_getCurrentUser s).2 = api_calls s ++ [CallGetCurrentUser].
Proof.
  unfold call_getCurrentUser.
  by destruct (api_getCurrentUser (localStorage s) (outside s)) as [[result m] e].
Qed.

Lemma fall_back_storage (storedUser : option string) (s : State E) :
  localStorage (fall_back storedUser s).2 = localStorage s.
Proof.
  unfold fall_back. destruct storedUser as [text|]; [|done].
  destruct (truthy_string text); [|done]. by destruct (JSON_parse text).
Qed.

Lemma fall_back_calls (storedUser : option string) (s : State E) :
  api_calls (fall_back storedUser s).2 = api_calls s.
Proof.
  unfold fall_back. destruct storedUser as [text|]; [|done].
  destruct (truthy_string text); [|done]. by destruct (JSON_parse text).
Qed.

Lemma role_changed_differs (cached fetched : option string) :
  role_changed cached fetched = true → role_differs cached fetched.
Proof.
  unfold role_changed, role_differs. intros Hc.
  apply andb_true_iff in Hc as [_ Hc]. by apply bool_decide_eq_true in Hc.
Qed.

(** What [refreshUser] does to storage, case by case. Without an access
    token, or with a cached text that does not parse, nothing is called
    and nothing written. Otherwise storage is as the call left it, or that
    with the fetched profile under [user]; the latter only when no cached
    profile exists or the roles differ, and always when no cached profile
    exists. When the call fails the in-memory user falls back to the
    cached profile. *)
Lemma refreshUser_storage_cases (s : State E) :
  let s' := (refreshUser s).2 in
  let result := (call_getCurrentUser s).1 in
  let s1 := (call_getCurrentUser s).2 in
  (calls_backend s = false → localStorage s' = localStorage s ∧ api_calls s' = api_calls s)
  ∧ (calls_backend s = true →
     (localStorage s' = localStorage s1
      ∨ ∃ response userData,
          result = Fulfilled response ∧ payload response = Some userData
          ∧ localStorage s' = <["user" := JSON_stringify userData]> (localStorage s1)
          ∧ (cached_profile s = None
             ∨ role_differs (cached_profile s ≫= role) (role userData)))
     ∧ (∀ response userData,
          result = Fulfilled response → payload response = Some userData →
          cached_profile s = None →
          localStorage s' = <["user" := JSON_stringify userData]> (localStorage s1))
     ∧ (∀ error,
          result = Rejected error →
          localStorage s' = localStorage s1
          ∧ (truthy (getItem "user" s1) = false → refreshUser s = (Fulfilled (), s1))
          ∧ (∀ text u,
               getItem "user" s1 = Some text → truthy_string text = true →
               JSON_parse text = Some u →
               refreshUser s = (Fulfilled (), setUser u s1)))).
Proof.
  cbv zeta. unfold calls_backend.
  destruct (truthy (getItem "accessToken" s)) eqn:Htoken; simpl.
  2:{ split; [|done]. intros _. unfold refreshUser. by rewrite Htoken. }
  destruct (parse_stored (getItem "user" s)) as [currentUser|] eqn:Hparse.
  2:{ split; [|done]. intros _. unfold refreshUser. rewrite Htoken, Hparse. simpl.
      unfold refreshUser_catch. by rewrite fall_back_storage, fall_back_calls. }
  split; [done|]. intros _.
  assert (Hcached : cached_profile s = currentUser).
  { unfold cached_profile. rewrite Hparse. by destruct currentUser. }
  rewrite Hcached. unfold refreshUser. rewrite Htoken, Hparse. simpl.
  destruct (call_getCurrentUser s) as [[response|error] s1]; simpl.
  - destruct (payload response) as [userData|] eqn:Hpayload.
    + assert (Hsame : ∀ response' userData',
        Fulfilled response = Fulfilled response' → payload response' = Some userData' →
        userData' = userData) by (intros ? ? [= <-]; congruence).
      destruct (role_changed (currentUser ≫= role) (role userData)) eqn:Hrole; simpl.
      * split; [|split; [|done]].
        -- right. exists response, userData. repeat split; [done|].
           right. by apply role_changed_differs.
        -- intros response' userData' Hr Hp _. by rewrite (Hsame _ _ Hr Hp).
      * destruct currentUser as [u|]; simpl.
        -- split; [by left|]. split; [|done]. by intros ? ? _ _ [=].
        -- split; [|split; [|done]].
           ++ right. exists response, userData. repeat split; auto.
           ++ intros response' userData' Hr Hp _. by rewrite (Hsame _ _ Hr Hp).
    + split; [|split; [|done]].
      * left. pose proof (fall_back_storage (getItem "user" s) s1) as Hst.
        destruct (fall_back (getItem "user" s) s1) as [[[]|err] s2]; simpl in *; [done|].
        unfold refreshUser_catch. by rewrite fall_back_storage.
      * intros response' userData' [= <-]. by rewrite Hpayload.
  - split; [|split; [done|]].
    + left. unfold refreshUser_catch. apply fall_back_storage.
    + intros ? _. unfold refreshUser_catch, fall_back.
      split; [apply fall_back_storage|]. split.
      * destruct (getItem "user" s1) as [text|]; simpl; [|done]. by intros ->.
      * intros text u -> -> ->. done.
Qed.

Lemma refreshUser_only_on_role_change : overwrites_only_on_role_change refreshUser.
Proof.
  intros s. cbv zeta.
  destruct (refreshUser_storage_cases s) as [Hno Hyes].
  destruct (calls_backend s); [|left; by apply Hno].
  destruct (Hyes eq_refl) as ([Hsame | Hover] & _); auto.
Qed.

Lemma refreshUser_falls_back : falls_back_on_failure refreshUser.
Proof.
  intros s error. cbv zeta. intros Htoken [currentUser Hparse] Hresult.
  destruct (refreshUser_storage_cases s) as [_ Hyes].
  unfold calls_backend in Hyes. rewrite Htoken, Hparse in Hyes.
  destruct (Hyes eq_refl) as (_ & _ & Hfail). by apply (Hfail error).
Qed.

Lemma polling_overwrites_on_every_success :
  overwrites_on_every_success AuthProviderPolling.refreshUser.
Proof.
  intros s response userData Htoken Hresult Hpayload.
  unfold AuthProviderPolling.refreshUser. rewrite Htoken. simpl.
  destruct (call_getCurrentUser s) as [result s1]. simpl in *. subst result.
  by rewrite Hpayload.
Qed.

Lemma polling_falls_back : falls_back_on_failure AuthProviderPolling.refreshUser.
Proof.
  intros s error. cbv zeta. intros Htoken _ Hresult.
  unfold AuthProviderPolling.refreshUser. rewrite Htoken. simpl.
  destruct (call_getCurrentUser s) as [result s1]. simpl in *. subst result.
  unfold refreshUser_catch, fall_back. split; [apply fall_back_storage|]. split.
  - destruct (getItem "user" s1) as [text|]; simpl; [|done]. by intros ->.
  - intros text u -> -> ->. done.
Qed.

(** C5, as the code has it. The [refreshUser] that compares roles
    overwrites the cached profile in storage only when the fetched role
    differs from the cached role, or when no cached profile exists, and
    leaves storage unchanged in every other case. The [refreshUser] of the
    context that polls overwrites the cached profile on every successful
    response. On network failure both fall back silently to the last
    cached profile. *)
Theorem refreshUser_overwrites_the_cached_profile :
  overwrites_only_on_role_change refreshUser
  ∧ overwrites_on_every_success AuthProviderPolling.refreshUser
  ∧ falls_back_on_failure refreshUser
  ∧ falls_back_on_failure AuthProviderPolling.refreshUser.
Proof.
  split; [exact refreshUser_only_on_role_change|].
  split; [exact polling_overwrites_on_every_success|].
  split; [exact refreshUser_falls_back | exact polling_falls_back].
Qed.

End ProviderFacts.

Section ProviderExamples.
Import AuthProvider Examples.

(** A wrong password: the error carries the message of the backend, and
    nothing is stored. *)
Lemma login_refusal_is_raised_example :
  let s1 := {| localStorage := ∅; user := None;
               api_calls := [CallLogin "ana@example.com" "wrong"]; outside := [] |} in
  call_login "ana@example.com" "wrong" logged_out
  = (Fulfilled (example_login "ana@example.com" "wrong"), s1)
  ∧ status (example_login "ana@example.com" "wrong") ≠ "success"
  ∧ login "ana@example.com" "wrong" logged_out
    = (Rejected (Error "Invalid credentials"), s1).
Proof.
  cbv zeta.
  assert (Hcall : call_login "ana@example.com" "wrong" logged_out
                  = (Fulfilled (example_login "ana@example.com" "wrong"),
                     {| localStorage := ∅; user := None;
                        api_calls := [CallLogin "ana@example.com" "wrong"]; outside := [] |}))
    by reflexivity.
  split; [exact Hcall|]. split; [discriminate|].
  destruct (login_refusal_is_raised _ _ _ _ _ Hcall (or_intror eq_refl))
    as (text & Hlogin & _ & Hmessage & _).
  rewrite Hlogin. by rewrite (Hmessage "Invalid credentials" eq_refl eq_refl).
Defined.

(** The right password: both tokens and the profile are stored. *)
Lemma login_success_stores_session_witness :
  let s' := (login "ana@example.com" "secret" logged_out).2 in
  status (example_login "ana@example.com" "secret") = "success"
  ∧ getItem "accessToken" s' = Some "h.eyJleHAiOjQxMDI0NDQ4MDB9.s"
  ∧ getItem "refreshToken" s' = Some "r1"
  ∧ getItem "user" s' = Some "7:CUSTOMER:Ana"
  ∧ isAuthenticated s' = true.
Proof.
  cbv zeta. split; [reflexivity|].
  assert (Hcall : call_login "ana@example.com" "secret" logged_out
                  = (Fulfilled (example_login "ana@example.com" "secret"),
                     {| localStorage := ∅; user := None;
                        api_calls := [CallLogin "ana@example.com" "secret"]; outside := [] |}))
    by reflexivity.
  assert (Hdata : data (example_login "ana@example.com" "secret")
                  = Some {| tokens := {| accessToken := "h.eyJleHAiOjQxMDI0NDQ4MDB9.s";
                                         refreshToken := "r1" |};
                            user_data := profile "7" "CUSTOMER" "Ana" |})
    by reflexivity.
  destruct (login_success_stores_session _ _ _ _ _ _ Hcall eq_refl Hdata eq_refl eq_refl)
    as (_ & Haccess & Hrefresh & _ & _ & Huser & _ & Hauth).
  auto.
Defined.

(** C7 as stated fails on the code: of the persisted keys of the
    external-interfaces section, [lastRoleCheck] outlives [logout]. *)
Lemma logout_keeps_lastRoleCheck :
  "lastRoleCheck" ∈ persisted_keys
  ∧ getItem "lastRoleCheck" (logout (logged_in [])) = Some "1700000000000"
  ∧ ¬ (∀ key, key ∈ persisted_keys → getItem key (logout (logged_in [])) = None).
Proof.
  assert (Hin : "lastRoleCheck" ∈ persisted_keys) by (unfold persisted_keys, session_keys; set_solver).
  assert (Hkept : getItem "lastRoleCheck" (logout (logged_in [])) = Some "1700000000000")
    by (vm_compute; reflexivity).
  split; [done|]. split; [done|].
  intros Hall. specialize (Hall _ Hin). by rewrite Hkept in Hall.
Qed.

(** An approved vendor: the cached profile is overwritten. *)
Example refreshUser_role_changed :
  let s' := (refreshUser (logged_in [current_user (profile "7" "VENDOR" "Ana")])).2 in
  getItem "user" s' = Some "7:VENDOR:Ana" ∧ user s' = Some (profile "7" "VENDOR" "Ana").
Proof. split; vm_compute; reflexivity. Qed.

(** The same role under a new name: nothing is written. *)
Example refreshUser_same_role :
  let s := logged_in [current_user (profile "7" "CUSTOMER" "Ana Cruz")] in
  localStorage (refreshUser s).2 = localStorage s ∧ user (refreshUser s).2 = user s.
Proof. split; vm_compute; reflexivity. Qed.

(** The backend out of reach: the in-memory user is the cached profile. *)
Example refreshUser_network_failure :
  let s := session {[ "accessToken" := "t"; "user" := "7:CUSTOMER:Ana" ]} None [] in
  (refreshUser s).1 = Fulfilled ()
  ∧ localStorage (refreshUser s).2 = localStorage s
  ∧ user (refreshUser s).2 = Some (profile "7" "CUSTOMER" "Ana").
Proof. repeat split; vm_compute; reflexivity. Qed.

(** C5 as stated fails on the context that polls: with a cached profile
    and a fetched profile of the same role, its [refreshUser] overwrites
    the cached profile all the same. *)
Lemma polling_refreshUser_overwrites_same_role :
  let s := logged_in [current_user (profile "7" "CUSTOMER" "Ana Cruz")] in
  cached_profile s = Some (profile "7" "CUSTOMER" "Ana")
  ∧ getItem "user" (call_getCurrentUser s).2 = Some "7:CUSTOMER:Ana"
  ∧ getItem "user" (AuthProviderPolling.refreshUser s).2 = Some "7:CUSTOMER:Ana Cruz"
  ∧ ¬ overwrites_only_on_role_change (E := Backend) AuthProviderPolling.refreshUser.
Proof.
  cbv zeta.
  set (s := logged_in [current_user (profile "7" "CUSTOMER" "Ana Cruz")]).
  assert (Hcached : cached_profile s = Some (profile "7" "CUSTOMER" "Ana")) by reflexivity.
  assert (Hbefore : getItem "user" s = Some "7:CUSTOMER:Ana") by reflexivity.
  assert (Hcall : getItem "user" (call_getCurrentUser s).2 = Some "7:CUSTOMER:Ana")
    by reflexivity.
  assert (Hafter : getItem "user" (AuthProviderPolling.refreshUser s).2
                   = Some "7:CUSTOMER:Ana Cruz") by (vm_compute; reflexivity).
  repeat split; try done.
  intros Hclaim. destruct (Hclaim s) as [Hs | [Hs | (response & userData & Hr & Hp & _ & Hwhy)]].
  - unfold getItem in *. rewrite Hs in Hafter. congruence.
  - unfold getItem in *. rewrite Hs in Hafter. congruence.
  - injection Hr as <-. injection Hp as <-.
    destruct Hwhy as [Hnone | Hdiff]; [congruence|].
    rewrite Hcached in Hdiff. by apply Hdiff.
Qed.

End ProviderExamples.

(* ------------------------------------------------------------------ *)
(** ** Rendering a thread *)

Section ReplyViewFacts.
Import Replies ReplyView.

Lemma flat_map_length_le {A B C : Type} (f : A → list B) (g : A → list C) (l : list A) :
  Forall (fun x => length (f x) ≤ length (g x)) l →
  length (flat_map f l) ≤ length (flat_map g l).
Proof.
  induction 1 as [|x l Hx _ IH]; [done|]. simpl. rewrite !length_app. lia.
Qed.

Lemma flat_map_Forall {A B : Type} (P : B → Prop) (f : A → list B) (l : list A) :
  Forall (fun x => Forall P (f x)) l → Forall P (flat_map f l).
Proof.
  induction 1 as [|x l Hx _ IH]; [constructor|]. simpl. by apply Forall_app.
Qed.

(** The rows of [renderReply] below a parent that sits at its own closed
    form: each at 52 + 56 * depth pixels, none above the caller's depth
    and none deeper than it or [maxDepth]. *)
Lemma renderReply_rows (e : gmap Z bool) (reply : Discussion) :
  ∀ d p, totalIndent d p = 52 + 56 * d →
    Forall (fun row => marginLeft row = 52 + 56 * depth row
                       ∧ d ≤ depth row ∧ depth row ≤ Nat.max d maxDepth)
           (renderReply e reply d p).
Proof.
  induction reply as [i c|i c rs IH] using Discussion_tree_ind; intros d p Hp.
  - cbn [renderReply]. constructor; [cbn [marginLeft depth]; lia|constructor].
  - cbn [renderReply]. constructor; [cbn [marginLeft depth]; lia|].
    destruct (has_replies (Some rs) && Nat.ltb d maxDepth && shown_nested e i) eqn:Hshow;
      [|constructor].
    apply andb_true_iff in Hshow as [Hshow _]. apply andb_true_iff in Hshow as [_ Hlt].
    apply Nat.ltb_lt in Hlt. apply flat_map_Forall.
    eapply Forall_impl; [exact IH|]. intros r Hr. cbv beta.
    eapply Forall_impl; [apply (Hr (d + 1) (totalIndent d p))|].
    + unfold totalIndent at 1. replace (Nat.eqb (d + 1) 0) with false
        by (symmetry; apply Nat.eqb_neq; lia).
      rewrite Hp. unfold levelIndent, borderPadding. lia.
    + intros row (Hm & Hd & Hmax). cbv beta. unfold maxDepth in *. lia.
Qed.

(** X1. Every reply drawn under a main discussion sits at depth at most
    5, with a left margin of 52 + 56 * depth pixels. *)
Theorem rendered_replies_indent (e : gmap Z bool) (discussion : Discussion) :
  Forall (fun row => marginLeft row = 52 + 56 * depth row ∧ depth row ≤ 5)
         (renderReplies e discussion).
Proof.
  unfold renderReplies. destruct (replies discussion) as [l|]; [|constructor].
  destruct (has_replies (Some l) && shown_top e (id discussion)); [|constructor].
  apply flat_map_Forall, Forall_forall. intros r _.
  eapply Forall_impl; [apply (renderReply_rows e r 0 0); reflexivity|].
  intros row (Hm & _ & Hmax). cbv beta. unfold maxDepth in Hmax. lia.
Qed.

Lemma renderReply_length (e : gmap Z bool) (reply : Discussion) :
  ∀ d p, length (renderReply e reply d p) ≤ length (reply :: descendants reply).
Proof.
  induction reply as [i c|i c rs IH] using Discussion_tree_ind; intros d p.
  - cbn [renderReply descendants length]. lia.
  - cbn [renderReply descendants length]. apply le_n_S.
    destruct (has_replies (Some rs) && Nat.ltb d maxDepth && shown_nested e i);
      [|apply Nat.le_0_l].
    apply flat_map_length_le. eapply Forall_impl; [exact IH|].
    intros r Hr. apply Hr.
Qed.

(** X2. The page never draws more replies under a discussion than the
    label of its button counts. *)
Theorem rendered_replies_at_most_counted (e : gmap Z bool) (discussion : Discussion) :
  length (renderReplies e discussion) ≤ countTotalReplies (replies discussion).
Proof.
  unfold renderReplies. destruct (replies discussion) as [l|]; [|apply Nat.le_0_l].
  destruct (has_replies (Some l) && shown_top e (id discussion)); [|apply Nat.le_0_l].
  assert (Hcount : countTotalReplies (Some l)
                   = length (flat_map (fun r => r :: descendants r) l)).
  { destruct l as [|r l]; [reflexivity|].
    apply fold_step_length, Forall_forall. intros ? _. apply countNested_descendants. }
  rewrite Hcount. apply flat_map_length_le.
  apply Forall_forall. intros x _. apply renderReply_length.
Qed.

Lemma levels_child (i : Z) (c : string) (rs : list Discussion) (r : Discussion) :
  r ∈ rs → S (levels r) ≤ levels (mkDiscussion i c (Some rs)).
Proof.
  simpl. induction 1 as [r rs|r r' rs _ IH]; simpl; lia.
Qed.

Lemma flat_map_map_eq {A B C : Type} (f : A → list B) (g : A → list C)
    (h : B → Z) (k : C → Z) (l : list A) :
  Forall (fun x => map h (f x) = map k (g x)) l →
  map h (flat_map f l) = map k (flat_map g l).
Proof.
  induction 1 as [|x l Hx _ IH]; [done|]. simpl. by rewrite !map_app, Hx, IH.
Qed.

(** With every reply that has replies toggled on, and no level beyond the
    cap, [renderReply] draws the reply and all of its descendants, in
    order. *)
Lemma renderReply_all (e : gmap Z bool) (reply : Discussion) :
  ∀ d p,
    d + levels reply ≤ maxDepth →
    (∀ x, x ∈ reply :: descendants reply →
          has_replies (replies x) = true → shown_nested e (id x) = true) →
    map reply_id (renderReply e reply d p) = map id (reply :: descendants reply).
Proof.
  induction reply as [i c|i c rs IH] using Discussion_tree_ind; intros d p Hlev Hexp.
  - reflexivity.
  - destruct rs as [|r0 rs0]; [reflexivity|].
    set (rs := r0 :: rs0) in *.
    cbn [renderReply descendants]. rewrite !map_cons. f_equal.
    assert (Hd : Nat.ltb d maxDepth = true).
    { apply Nat.ltb_lt. pose proof (levels_child i c rs r0 ltac:(left)). lia. }
    assert (Hi : shown_nested e i = true).
    { apply (Hexp (mkDiscussion i c (Some rs))); [left|reflexivity]. }
    change (has_replies (Some rs)) with true. rewrite Hd, Hi. cbn [andb].
    apply (flat_map_map_eq _ (fun r => r :: descendants r) reply_id id rs).
    apply Forall_forall. intros r Hr. rewrite Forall_forall in IH.
    apply (IH r Hr).
    + pose proof (levels_child i c rs r Hr). lia.
    + intros x Hx. apply Hexp. right.
      change (x ∈ flat_map (fun r => r :: descendants r) rs).
      apply list_elem_of_In, in_flat_map. exists r.
      split; by apply list_elem_of_In.
Qed.

(** X3. When no reply lies more than six levels below the main
    discussion and every reply that has replies is toggled on, the page
    draws every reply that [countTotalReplies] counts, each once, in the
    order of the tree. *)
Theorem rendered_replies_complete (e : gmap Z bool) (discussion : Discussion) :
  levels discussion ≤ 6 →
  shown_top e (id discussion) = true →
  (∀ x, x ∈ all_replies (replies discussion) →
        has_replies (replies x) = true → shown_nested e (id x) = true) →
  map reply_id (renderReplies e discussion) = map id (all_replies (replies discussion))
  ∧ length (renderReplies e discussion) = countTotalReplies (replies discussion).
Proof.
  intros Hlev Htop Hexp.
  assert (Hmap : map reply_id (renderReplies e discussion)
                 = map id (all_replies (replies discussion))).
  { unfold renderReplies, all_replies in *.
    destruct discussion as [i c [rs|]]; cbn [replies id] in *; [|done].
    rewrite Htop. destruct rs as [|r0 rs0]; [reflexivity|]. set (rs := r0 :: rs0) in *.
    change (has_replies (Some rs)) with true. cbn [andb].
    apply (flat_map_map_eq _ (fun r => r :: descendants r) reply_id id rs).
    apply Forall_forall. intros r Hr. apply renderReply_all.
    - pose proof (levels_child i c rs r Hr) as Hc. unfold maxDepth. lia.
    - intros x Hx. apply Hexp. apply list_elem_of_In, in_flat_map. exists r.
      split; by apply list_elem_of_In. }
  split; [exact Hmap|].
  rewrite <- (length_map reply_id), Hmap, length_map.
  destruct (replies discussion) as [[|r l]|]; [reflexivity| |reflexivity].
  symmetry. apply fold_step_length, Forall_forall. intros ? _. apply countNested_descendants.
Qed.

(** X4. Toggling a reply flips whether its nested replies are shown, and
    changes nothing for any other reply. *)
Theorem toggleReplies_flips_nested (e : gmap Z bool) (i : Z) :
  shown_nested (toggleReplies i e) i = negb (shown_nested e i)
  ∧ ∀ j, j ≠ i → toggleReplies i e !! j = e !! j.
Proof.
  unfold shown_nested, toggleReplies. split.
  - by rewrite lookup_insert_eq.
  - intros j Hj. by rewrite lookup_insert_ne.
Qed.

(** X5. The replies of a main discussion are shown until toggled off,
    and the first toggle of a discussion never toggled before stores
    [true]: it leaves the replies shown, and only the second toggle hides
    them. Once toggled, each toggle flips. *)
Theorem toggleReplies_first_toggle_of_a_discussion (e : gmap Z bool) (i : Z) :
  (e !! i = None →
   shown_top e i = true
   ∧ shown_top (toggleReplies i e) i = true
   ∧ shown_top (toggleReplies i (toggleReplies i e)) i = false)
  ∧ (is_Some (e !! i) → shown_top (toggleReplies i e) i = negb (shown_top e i)).
Proof.
  unfold shown_top, toggleReplies. split.
  - intros Hi. rewrite !lookup_insert_eq, Hi. done.
  - intros [b Hb]. rewrite lookup_insert_eq, Hb. by destruct b.
Qed.

End ReplyViewFacts.

(* ------------------------------------------------------------------ *)
(** ** The map picker as a whole *)

Section MapPickerViewFacts.
Import MapPicker MapPickerView.

(** X6. The map always opens centred inside the island bounding box:
    on the props when they are usable, on the default centre otherwise,
    a latitude or longitude of [0] or [NaN] included. *)
Theorem start_center_inside_island (lat lng : option float) :
  inside_island (start_center lat lng).1 (start_center lat lng).2.
Proof.
  assert (Hdefault : inside_island DEFAULT_CENTER.1 DEFAULT_CENTER.2)
    by (repeat split; vm_compute; reflexivity).
  unfold start_center. destruct lat as [la|], lng as [ln|]; try exact Hdefault.
  destruct (truthy_number la && truthy_number ln && isWithinBounds la ln) eqn:Hok;
    [|exact Hdefault].
  apply andb_true_iff in Hok as [_ Hin]. by apply isWithinBounds_inside.
Qed.

Lemma clicks_inside_Forall (events : list MapEvent) :
  Forall (fun p : LatLng => inside_island p.1 p.2) (clicks_inside events).
Proof.
  unfold clicks_inside. induction events as [|ev events IH]; [constructor|].
  cbn [flat_map]. apply Forall_app. split; [|exact IH].
  destruct ev as [lat lng|lat lng]; [|constructor].
  destruct (isWithinBounds lat lng) eqn:Hin; [|constructor].
  constructor; [|constructor]. by apply isWithinBounds_inside.
Qed.

Lemma run_clicks (events : list MapEvent) :
  forallb is_click events = true →
  ∀ st,
    (∀ m, markerRef st = Some m → inside_island (position m).1 (position m).2) →
    selected (run false events st) = selected st ++ clicks_inside events
    ∧ ∀ m, markerRef (run false events st) = Some m →
           inside_island (position m).1 (position m).2.
Proof.
  unfold run, clicks_inside.
  induction events as [|ev events IH]; intros Hclicks st Hmarker.
  - cbn. by rewrite app_nil_r.
  - cbn [forallb] in Hclicks. apply andb_true_iff in Hclicks as [Hev Hclicks].
    destruct ev as [lat lng|lat lng]; [|done].
    cbn [fold_left flat_map handle]. unfold on_click.
    destruct (isWithinBounds lat lng) eqn:Hin; cbn [negb].
    + destruct (IH Hclicks
        {| markerRef := Some {| position := (lat, lng); draggable := true |};
           selected := selected st ++ [(lat, lng)];
           flights := flights st ++ [(lat, lng)] |}) as [Hsel Hm].
      { intros m [= <-]. by apply isWithinBounds_inside. }
      split; [|exact Hm]. rewrite Hsel. cbn [selected]. by rewrite <- app_assoc.
    + destruct (IH Hclicks st Hmarker) as [Hsel Hm]. split; [|exact Hm].
      by rewrite Hsel.
Qed.

Lemma initial_marker_inside (disabled : bool) (lat lng : option float) (m : Marker) :
  markerRef (initial disabled lat lng) = Some m →
  inside_island (position m).1 (position m).2 ∧ draggable m = negb disabled.
Proof.
  unfold initial. destruct lat as [la|], lng as [ln|]; try done.
  destruct (truthy_number la && truthy_number ln && isWithinBounds la ln) eqn:Hok; [|done].
  apply andb_true_iff in Hok as [_ Hin]. intros [= <-].
  split; [by apply isWithinBounds_inside | done].
Qed.

(** X7. On an enabled picker, a session of clicks reports exactly the
    clicks that fall inside the bounds, in order, every one of them
    inside the island box, and the marker, if there is one, stands inside
    the box throughout. *)
Theorem clicks_report_the_clicks_inside
    (lat lng : option float) (events : list MapEvent) :
  forallb is_click events = true →
  let st := run false events (initial false lat lng) in
  selected st = clicks_inside events
  ∧ Forall (fun p : LatLng => inside_island p.1 p.2) (selected st)
  ∧ ∀ m, markerRef st = Some m → inside_island (position m).1 (position m).2.
Proof.
  intros Hclicks. cbv zeta.
  destruct (run_clicks events Hclicks (initial false lat lng)) as [Hsel Hm].
  { intros m Hi. by apply (initial_marker_inside false lat lng). }
  assert (Hnone : selected (initial false lat lng) = []).
  { unfold initial. destruct lat as [la|], lng as [ln|]; try done.
    by destruct (truthy_number la && truthy_number ln && isWithinBounds la ln). }
  rewrite Hnone in Hsel. cbn [app] in Hsel.
  split; [exact Hsel|]. split; [|exact Hm]. rewrite Hsel. apply clicks_inside_Forall.
Qed.

(** X8. A disabled picker is inert: whatever clicks and drags it is
    sent, its state stays as the initialising effect left it, and
    [onLocationSelect] is never called. *)
Theorem disabled_picker_is_inert (lat lng : option float) (events : list MapEvent) :
  run true events (initial true lat lng) = initial true lat lng
  ∧ selected (run true events (initial true lat lng)) = [].
Proof.
  assert (Hstep : ∀ ev, handle true ev (initial true lat lng) = initial true lat lng).
  { intros [la ln|la ln]; [done|]. cbn [handle].
    destruct (markerRef (initial true lat lng)) as [m|] eqn:Hm; [|done].
    destruct (initial_marker_inside true lat lng m Hm) as [_ ->]. done. }
  assert (Hrun : run true events (initial true lat lng) = initial true lat lng).
  { unfold run. induction events as [|ev events IH]; [done|].
    cbn [fold_left]. by rewrite Hstep. }
  split; [exact Hrun|]. rewrite Hrun.
  unfold initial. destruct lat as [la|], lng as [ln|]; try done.
  by destruct (truthy_number la && truthy_number ln && isWithinBounds la ln).
Qed.

End MapPickerViewFacts.

(* ------------------------------------------------------------------ *)
(** ** The base URL of the API *)

Section ApiBaseFacts.
Import ApiBase.

Lemma endsWith_refl (s : string) : endsWith s s = true.
Proof. destruct s; cbn [endsWith]; by rewrite String.eqb_refl. Qed.

Lemma endsWith_append (s suffix : string) : endsWith (s +:+ suffix) suffix = true.
Proof.
  induction s as [|c s IH]; [apply endsWith_refl|].
  change (String c s +:+ suffix) with (String c (s +:+ suffix)).
  cbn [endsWith]. rewrite IH. by destruct (String.eqb _ _).
Qed.

(** A text that ends with [/api] has no slash to lose, and is not empty. *)
Lemma endsWith_api_clean (s : string) :
  endsWith s "/api" = true → strip_trailing_slash s = s ∧ truthy_string s = true.
Proof.
  induction s as [|c s IH]; [done|].
  cbn [endsWith]. destruct (String.eqb (String c s) "/api") eqn:Heq.
  - apply String.eqb_eq in Heq as ->. done.
  - intros Hs. destruct (IH Hs) as [Hstrip Htruthy]. split; [|done].
    destruct s as [|c' s]; [done|]. cbn [strip_trailing_slash] in *. by rewrite Hstrip.
Qed.

Lemma getApiBaseUrl_base (envUrl : option string) (window_defined : bool) :
  endsWith (getApiBaseUrl envUrl window_defined) "/api" = true.
Proof.
  unfold getApiBaseUrl. destruct (truthy envUrl).
  - destruct (endsWith (strip_trailing_slash (default "" envUrl)) "/api") eqn:Hends;
      [exact Hends | apply endsWith_append].
  - by destruct window_defined.
Qed.

(** X9. Whatever the environment variable holds and wherever the code
    runs, the base URL ends with [/api] and with no slash after it:
    stripping a trailing slash leaves it as it is. *)
Theorem getApiBaseUrl_ends_with_api (envUrl : option string) (window_defined : bool) :
  endsWith (getApiBaseUrl envUrl window_defined) "/api" = true
  ∧ strip_trailing_slash (getApiBaseUrl envUrl window_defined)
    = getApiBaseUrl envUrl window_defined.
Proof.
  pose proof (getApiBaseUrl_base envUrl window_defined) as Hends.
  split; [exact Hends|]. by apply endsWith_api_clean.
Qed.

(** X10. A base URL the function produced is a fixed point: set as the
    environment variable, it comes back unchanged, without a second
    [/api]. *)
Theorem getApiBaseUrl_idempotent (envUrl : option string) (w w' : bool) :
  getApiBaseUrl (Some (getApiBaseUrl envUrl w)) w' = getApiBaseUrl envUrl w.
Proof.
  pose proof (getApiBaseUrl_base envUrl w) as Hends.
  destruct (endsWith_api_clean _ Hends) as [Hstrip Htruthy].
  unfold getApiBaseUrl at 1.
  change (truthy (Some (getApiBaseUrl envUrl w))) with (truthy_string (getApiBaseUrl envUrl w)).
  change (default "" (Some (getApiBaseUrl envUrl w))) with (getApiBaseUrl envUrl w).
  rewrite Htruthy. cbv zeta. by rewrite Hstrip, Hends.
Qed.

End ApiBaseFacts.

(* ------------------------------------------------------------------ *)
(** ** What a run of the client leaves alone *)

Section ClientFrameFacts.
Import ApiService ClientFrame.
Context `{Jwt.Decoder} {E : Type} `{Network E}.

Lemma quiet_refl (w : World E) : quiet w w.
Proof. by repeat split. Qed.

Lemma quiet_trans (w1 w2 w3 : World E) : quiet w1 w2 → quiet w2 w3 → quiet w1 w3.
Proof.
  intros [(Hw & Hp & Hk) Hn] [(Hw' & Hp' & Hk') Hn']. repeat split; try congruence.
  intros key Hkey. by rewrite Hk', Hk.
Qed.

Lemma quiet_setItem (key value : string) (w : World E) :
  key ∈ session_keys → quiet w (setItem key value w).
Proof.
  intros Hkey. repeat split. intros k Hk. unfold setItem. simpl.
  apply lookup_insert_ne. by intros ->.
Qed.

Lemma quiet_removeItem (key : string) (w : World E) :
  key ∈ session_keys → quiet w (removeItem key w).
Proof.
  intros Hkey. repeat split. intros k Hk. unfold removeItem. simpl.
  apply lookup_delete_ne. by intros ->.
Qed.

Lemma quiet_sent (c : NetCall) (e : E) (w : World E) : quiet w (sent c e w).
Proof. by repeat split. Qed.

Lemma session_keys_elem :
  "accessToken" ∈ session_keys ∧ "refreshToken" ∈ session_keys ∧ "user" ∈ session_keys.
Proof. unfold session_keys. repeat split; set_solver. Qed.

Lemma quiet_store_tokens (t : Tokens) (w : World E) : quiet w (store_tokens t w).
Proof.
  destruct session_keys_elem as (Ha & Hr & _). unfold store_tokens.
  destruct (refreshToken t) as [r|]; [destruct (truthy_string r)|];
    try (by apply quiet_setItem).
  eapply quiet_trans; by apply quiet_setItem.
Qed.

Lemma quiet_clear_session (w : World E) : quiet w (clear_session w).
Proof.
  destruct session_keys_elem as (Ha & Hr & Hu). unfold clear_session.
  eapply quiet_trans; [eapply quiet_trans|]; by apply quiet_removeItem.
Qed.

Lemma quiet_post_refresh (origin : RefreshOrigin) (token : string) (w : World E) :
  quiet w (post_refresh origin token w).2.
Proof.
  unfold post_refresh. destruct (post_refresh_token token (env w)) as [result e].
  apply quiet_sent.
Qed.

Lemma quiet_send (config : Config) (w : World E) : quiet w (send config w).2.
Proof. unfold send. destruct (adapter config (env w)) as [result e]. apply quiet_sent. Qed.

Lemma quiet_request_interceptor (config : Config) (w : World E) :
  quiet w (request_interceptor config w).2.
Proof.
  unfold request_interceptor. destruct (window_defined w); [|apply quiet_refl].
  set (token := getItem "accessToken" w). set (refresh := getItem "refreshToken" w).
  assert (Hpro : quiet w (proactive_refresh token (default "" refresh) w).2).
  { unfold proactive_refresh.
    pose proof (quiet_post_refresh Proactive (default "" refresh) w) as Hq.
    destruct (post_refresh Proactive (default "" refresh) w) as [[reply|err] w1]; [|exact Hq].
    destruct (refreshed_tokens reply) as [t|]; [|exact Hq].
    eapply quiet_trans; [exact Hq | apply quiet_store_tokens]. }
  destruct (truthy token && truthy refresh && Jwt.isTokenExpiringSoon (Date_now (env w)) token).
  - destruct (proactive_refresh token (default "" refresh) w) as [[t|] w1]; exact Hpro.
  - destruct token as [t|]; apply quiet_refl.
Qed.

(** The end of a run: only session keys differ, and at most one
    navigation, to the login page, was made. *)
Lemma quiet_then_end (w w1 w2 : World E) :
  quiet w w1 →
  only_session_keys_differ w1 w2 ∧ navigated_to_login_at_most_once w1 w2 →
  only_session_keys_differ w w2 ∧ navigated_to_login_at_most_once w w2.
Proof.
  intros [(Hw & Hp & Hk) Hn] [(Hw' & Hp' & Hk') Hnav]. split.
  - repeat split; try congruence. intros key Hkey. by rewrite Hk', Hk.
  - unfold navigated_to_login_at_most_once in *. by rewrite <- Hn.
Qed.

Lemma quiet_is_end (w w' : World E) :
  quiet w w' → only_session_keys_differ w w' ∧ navigated_to_login_at_most_once w w'.
Proof. intros [Hf Hn]. split; [exact Hf | by left]. Qed.

Lemma end_with_login (w w' : World E) :
  quiet w w' →
  only_session_keys_differ w (set_href "/login" w')
  ∧ navigated_to_login_at_most_once w (set_href "/login" w').
Proof.
  intros [Hf Hn]. split; [exact Hf|]. right. simpl. by rewrite Hn.
Qed.

Lemma refresh_failed_end (refreshError : JsError) (w : World E) :
  only_session_keys_differ w (refresh_failed refreshError w).2
  ∧ navigated_to_login_at_most_once w (refresh_failed refreshError w).2.
Proof.
  unfold refresh_failed. cbn [snd]. destruct (window_defined w); [|apply quiet_is_end, quiet_refl].
  cbv zeta. case_decide.
  - apply end_with_login, quiet_clear_session.
  - apply quiet_is_end, quiet_clear_session.
Qed.

Lemma response_rejected_end
    (replay : Config → World E → option (Settled Response * World E))
    (error : JsError) (config : Config) (w : World E)
    (result : Settled Response) (w' : World E) :
  (∀ c x r x', replay c x = Some (r, x') →
     only_session_keys_differ x x' ∧ navigated_to_login_at_most_once x x') →
  response_rejected replay error config w = Some (result, w') →
  only_session_keys_differ w w' ∧ navigated_to_login_at_most_once w w'.
Proof.
  intros Hreplay. unfold response_rejected.
  destruct (bool_decide (response_status error = Some 401%Z) && negb (_retry config));
    [|intros [= _ <-]; apply quiet_is_end, quiet_refl].
  cbv zeta. destruct (window_defined w); [|intros [= _ <-]; apply quiet_is_end, quiet_refl].
  destruct (negb (truthy (getItem "refreshToken" w))).
  { intros [= _ <-]. apply end_with_login, quiet_clear_session. }
  pose proof (quiet_post_refresh Reactive (default "" (getItem "refreshToken" w)) w) as Hq.
  destruct (post_refresh Reactive (default "" (getItem "refreshToken" w)) w)
    as [[reply|refreshError] w1]; cbn [snd] in Hq.
  - destruct (refreshed_tokens reply) as [t|].
    + intros Hrun. apply Hreplay in Hrun.
      eapply quiet_then_end; [|exact Hrun].
      eapply quiet_trans; [exact Hq | apply quiet_store_tokens].
    + intros [= _ <-]. eapply quiet_then_end; [exact Hq | apply (refresh_failed_end SyntaxError)].
  - intros [= _ <-]. eapply quiet_then_end; [exact Hq | apply (refresh_failed_end SyntaxError)].
Qed.

Lemma request_end (fuel : nat) :
  ∀ (config : Config) (w : World E) result w',
    request fuel config w = Some (result, w') →
    only_session_keys_differ w w' ∧ navigated_to_login_at_most_once w w'.
Proof.
  induction fuel as [|fuel IH]; intros config w result w'; [done|].
  cbn [request].
  pose proof (quiet_request_interceptor config w) as Hq1.
  destruct (request_interceptor config w) as [c1 w1]. cbn [snd] in Hq1.
  pose proof (quiet_send c1 w1) as Hq2.
  destruct (send c1 w1) as [[response|error] w2]; cbn [snd] in Hq2.
  - intros [= _ <-]. apply quiet_is_end. by eapply quiet_trans.
  - intros Hrun. eapply quiet_then_end; [by eapply quiet_trans|].
    by eapply response_rejected_end.
Qed.

(** X11. Whatever the network answers, a run of the client changes
    nothing in [localStorage] but the three session keys: every other
    key, [lastRoleCheck] for one, is as it was. *)
Theorem request_touches_only_session_keys
    (fuel : nat) (config : Config) (w : World E)
    (result : Settled Response) (w' : World E) :
  request fuel config w = Some (result, w') →
  ∀ key, key ∉ ["accessToken"; "refreshToken"; "user"] →
         getItem key w' = getItem key w.
Proof.
  intros Hrun. by destruct (request_end fuel config w result w' Hrun) as [(_ & _ & Hk) _].
Qed.

(** X12. A run of the client navigates at most once, and nowhere but to
    the login page. *)
Theorem request_navigates_to_login_at_most_once
    (fuel : nat) (config : Config) (w : World E)
    (result : Settled Response) (w' : World E) :
  request fuel config w = Some (result, w') →
  navigations w' = navigations w ∨ navigations w' = navigations w ++ ["/login"].
Proof.
  intros Hrun. by destruct (request_end fuel config w result w' Hrun) as [_ Hnav].
Qed.

End ClientFrameFacts.

(* ------------------------------------------------------------------ *)
(** ** Errors, replays and the session *)

Section ClientRunFacts.
Import ApiService ClientFrame.
Context `{Jwt.Decoder} {E : Type} `{Network E}.

(** X13. An error that is not a 401, a failure without a response
    included, reaches the caller as it is: one request went out, no
    refresh is attempted, nothing is replayed, the session keys are as the
    request interceptor left them and the browser stays on its page. *)
Theorem other_errors_reach_the_caller (config : Config) (w : World E) (error : JsError) :
  let c1 := (request_interceptor config w).1 in
  let w1 := (request_interceptor config w).2 in
  (send c1 w1).1 = Rejected error →
  response_status error ≠ Some 401%Z →
  ∀ fuel, ∃ w',
    request (S fuel) config w = Some (Rejected error, w')
    ∧ calls w' = calls w1 ++ [SentRequest c1]
    ∧ localStorage w' = localStorage w1
    ∧ navigations w' = navigations w.
Proof.
  cbv zeta. intros Hsend Hstatus fuel. cbn [request].
  destruct (quiet_request_interceptor config w) as [_ Hnav].
  destruct (request_interceptor config w) as [c1 w1]. cbn [fst snd] in *.
  unfold send in *. destruct (adapter c1 (env w1)) as [result e]. cbn [fst] in Hsend.
  subst result. unfold response_rejected.
  rewrite bool_decide_eq_false_2 by done. cbn [andb].
  eexists. split; [reflexivity|]. done.
Qed.

(** X15. Where there is no [window], on the server, the client is a
    plain pass-through: the request goes out once as it was given, with no
    header added, and the answer of the network, a 401 included, is the
    result; storage is neither read nor written and nothing navigates. *)
Theorem server_side_passes_through (config : Config) (w : World E) (fuel : nat) :
  window_defined w = false →
  request (S fuel) config w
  = Some ((adapter config (env w)).1,
          sent (SentRequest config) (adapter config (env w)).2 w).
Proof.
  intros Hwin. cbn [request]. unfold request_interceptor, send. rewrite Hwin.
  destruct (adapter config (env w)) as [[response|error] e]; cbn [fst snd]; [done|].
  unfold response_rejected. cbv zeta. cbn [window_defined sent]. rewrite Hwin.
  by destruct (bool_decide (response_status error = Some 401%Z) && negb (_retry config)).
Qed.

Lemma same_but_authorization_refl (config : Config) : same_but_authorization config config.
Proof. repeat split; eauto. Qed.

Lemma same_but_authorization_set (token : string) (config : Config) :
  same_but_authorization config (set_authorization token config).
Proof.
  unfold set_authorization. destruct (headers config) as [h|] eqn:Hh;
    [|apply same_but_authorization_refl].
  unfold same_but_authorization. cbn. rewrite Hh. repeat split; [done|].
  intros h0 [= <-]. eexists. split; [reflexivity|].
  intros key Hkey. by rewrite lookup_insert_ne.
Qed.

(** X16. The request interceptor changes nothing of a request but its
    [Authorization] header: the URL, the body, the [_retry] flag and every
    other header go out as the caller set them. *)
Theorem request_interceptor_changes_authorization_only (config : Config) (w : World E) :
  same_but_authorization config (request_interceptor config w).1.
Proof.
  unfold request_interceptor. destruct (window_defined w); [|apply same_but_authorization_refl].
  destruct (if truthy (getItem "accessToken" w) && truthy (getItem "refreshToken" w)
               && Jwt.isTokenExpiringSoon (Date_now (env w)) (getItem "accessToken" w)
            then proactive_refresh (getItem "accessToken" w)
                   (default "" (getItem "refreshToken" w)) w
            else (getItem "accessToken" w, w)) as [[t|] w1]; cbn [fst];
    [|apply same_but_authorization_refl].
  destruct (truthy_string t);
    [apply same_but_authorization_set | apply same_but_authorization_refl].
Qed.

Lemma session_kept_refl (w : World E) : session_kept w w.
Proof. by repeat split. Qed.

Lemma session_kept_trans (w1 w2 w3 : World E) :
  session_kept w1 w2 → session_kept w2 w3 → session_kept w1 w3.
Proof.
  intros (Hn & Hu & Ha & Hr) (Hn' & Hu' & Ha' & Hr').
  repeat split; [congruence|congruence|auto|auto].
Qed.

Lemma session_kept_store_tokens (t : Tokens) (w : World E) :
  session_kept w (store_tokens t w)
  ∧ is_Some (localStorage (store_tokens t w) !! "accessToken").
Proof.
  unfold store_tokens, setItem, session_kept.
  destruct (refreshToken t) as [r|]; [destruct (truthy_string r)|]; cbn;
    simplify_map_eq; repeat split; eauto.
Qed.

Lemma session_kept_sent (c : NetCall) (e : E) (w : World E) : session_kept w (sent c e w).
Proof. by repeat split. Qed.

Lemma session_kept_request_interceptor (config : Config) (w : World E) :
  session_kept w (request_interceptor config w).2.
Proof.
  unfold request_interceptor. destruct (window_defined w); [|apply session_kept_refl].
  set (token := getItem "accessToken" w). set (refresh := getItem "refreshToken" w).
  assert (Hpro : session_kept w (proactive_refresh token (default "" refresh) w).2).
  { unfold proactive_refresh, post_refresh.
    destruct (post_refresh_token (default "" refresh) (env w)) as [[reply|err] e];
      [|apply session_kept_sent].
    destruct (refreshed_tokens reply) as [t|]; [|apply session_kept_sent].
    eapply session_kept_trans; [apply session_kept_sent | apply session_kept_store_tokens]. }
  destruct (truthy token && truthy refresh && Jwt.isTokenExpiringSoon (Date_now (env w)) token).
  - destruct (proactive_refresh token (default "" refresh) w) as [[t|] w1]; exact Hpro.
  - destruct token as [t|]; apply session_kept_refl.
Qed.

Lemma session_kept_retried (config : Config) (w : World E) (fuel : nat)
    (result : Settled Response) (w' : World E) :
  _retry config = true →
  request (S fuel) config w = Some (result, w') →
  session_kept w w'.
Proof.
  intros Hretry. cbn [request].
  pose proof (session_kept_request_interceptor config w) as Hk.
  destruct (request_interceptor_calls config w) as (_ & _ & _ & Hflag).
  destruct (request_interceptor config w) as [c1 w1]. cbn [fst snd] in *.
  unfold send. destruct (adapter c1 (env w1)) as [[response|error] e].
  - intros [= _ <-]. eapply session_kept_trans; [exact Hk | apply session_kept_sent].
  - unfold response_rejected. rewrite Hflag, Hretry, andb_false_r.
    intros [= _ <-]. eapply session_kept_trans; [exact Hk | apply session_kept_sent].
Qed.

Lemma holds_token_sent (key : string) (c : NetCall) (e : E) (w : World E) :
  holds_token key w → holds_token key (sent c e w).
Proof. done. Qed.

(** Storing a new pair never leaves the refresh token empty: the one of
    the reply is stored only if it is not. *)
Lemma holds_refresh_store_tokens (t : Tokens) (w : World E) :
  holds_token "refreshToken" w → holds_token "refreshToken" (store_tokens t w).
Proof.
  intros (r0 & Hr0 & Htruthy). unfold holds_token, store_tokens, setItem.
  destruct (refreshToken t) as [r|]; [destruct (truthy_string r) eqn:Hr|];
    cbn; simplify_map_eq; eauto.
Qed.

Lemma holds_access_store_tokens (t : Tokens) (w : World E) :
  truthy_string (accessToken t) = true → holds_token "accessToken" (store_tokens t w).
Proof.
  intros Htruthy. exists (accessToken t). split; [|exact Htruthy].
  unfold store_tokens, setItem.
  destruct (refreshToken t) as [r|]; [destruct (truthy_string r)|];
    cbn; by simplify_map_eq.
Qed.

(** The request interceptor leaves storage as it is, or stores the pair
    its proactive refresh, sent with the stored refresh token, brought. *)
Lemma request_interceptor_storage (config : Config) (w : World E) :
  let w' := (request_interceptor config w).2 in
  localStorage w' = localStorage w
  ∨ ∃ t, renewed (post_refresh_token (default "" (getItem "refreshToken" w)) (env w)).1 = Some t
         ∧ ∃ e, w' = store_tokens t (sent (SentRefresh Proactive
                                              (default "" (getItem "refreshToken" w))) e w).
Proof.
  cbv zeta. unfold request_interceptor. destruct (window_defined w); [|by left].
  set (token := getItem "accessToken" w). set (refresh := getItem "refreshToken" w).
  destruct (truthy token && truthy refresh && Jwt.isTokenExpiringSoon (Date_now (env w)) token).
  - unfold proactive_refresh, post_refresh.
    destruct (post_refresh_token (default "" refresh) (env w)) as [[reply|err] e] eqn:Hpost.
    + cbn [fst renewed]. destruct (refreshed_tokens reply) as [t|] eqn:Hok.
      * right. exists t. split; [done|]. by exists e.
      * left. by destruct token.
    + left. by destruct token.
  - left. by destruct token.
Qed.

(** A request that carries [_retry] ends with storage as its request
    interceptor left it, whatever it is answered. *)
Lemma retried_storage (config : Config) (w : World E) (fuel : nat)
    (result : Settled Response) (w' : World E) :
  _retry config = true →
  request (S fuel) config w = Some (result, w') →
  localStorage w' = localStorage (request_interceptor config w).2.
Proof.
  intros Hretry. cbn [request].
  destruct (request_interceptor_calls config w) as (_ & _ & _ & Hflag).
  destruct (request_interceptor config w) as [c1 w1]. cbn [fst snd] in *.
  unfold send. destruct (adapter c1 (env w1)) as [[response|error] e].
  - by intros [= _ <-].
  - unfold response_rejected. rewrite Hflag, Hretry, andb_false_r. by intros [= _ <-].
Qed.

(** X14. Once a 401 has been answered by a successful reactive refresh
    that brought a non-empty access token, the user stays logged in
    however the replay ends, a second 401 included, provided the
    proactive refresh of the replay, if there is one and it succeeds,
    brings a non-empty access token too: storage holds a non-empty access
    token and a non-empty refresh token, the cached profile is untouched,
    and the browser is not sent to the login page. *)
Theorem refreshed_session_survives_the_replay
    (config : Config) (w : World E) (error : JsError)
    (refresh : string) (reply : RefreshReply) (e : E) (t : Tokens)
    (fuel : nat) (result : Settled Response) (w' : World E) :
  let c1 := (request_interceptor config w).1 in
  let w2 := (send c1 (request_interceptor config w).2).2 in
  let w3 := store_tokens t (sent (SentRefresh Reactive refresh) e w2) in
  _retry config = false →
  window_defined w = true →
  (send c1 (request_interceptor config w).2).1 = Rejected error →
  response_status error = Some 401%Z →
  getItem "refreshToken" w2 = Some refresh → truthy_string refresh = true →
  post_refresh_token refresh (env w2) = (Fulfilled reply, e) →
  refreshed_tokens reply = Some t →
  truthy_string (accessToken t) = true →
  (∀ t', renewed (post_refresh_token (default "" (getItem "refreshToken" w3)) (env w3)).1
         = Some t' →
         truthy_string (accessToken t') = true) →
  request (S (S fuel)) config w = Some (result, w') →
  navigations w' = navigations w
  ∧ holds_token "accessToken" w'
  ∧ holds_token "refreshToken" w'
  ∧ getItem "user" w' = getItem "user" w.
Proof.
  cbv zeta. intros Hretry Hwin Hsend H401 Hget Htruthy Hpost Hok Haccess Hlater.
  change (request (S (S fuel)) config w)
    with (let '(config, w) := request_interceptor config w in
          match send config w with
          | (Fulfilled response, w) => Some (Fulfilled response, w)
          | (Rejected error, w) => response_rejected (request (S fuel)) error config w
          end).
  pose proof (session_kept_request_interceptor config w) as Hk1.
  destruct (quiet_request_interceptor config w) as [(Hw1 & _ & _) _].
  destruct (request_interceptor_calls config w) as (_ & _ & _ & Hflag).
  destruct (request_interceptor config w) as [c1 w1]. cbn [fst snd] in *.
  assert (Hk2 : session_kept w1 (send c1 w1).2 ∧ window_defined (send c1 w1).2 = window_defined w1).
  { unfold send. destruct (adapter c1 (env w1)) as [r e0]. split; [apply session_kept_sent|done]. }
  destruct (send c1 w1) as [r w2]. cbn [fst snd] in *. subst r.
  destruct Hk2 as [Hk2 Hw2].
  rewrite (unauthorized_refresh_succeeds _ error c1 w2 refresh reply e t)
    by (try done; congruence).
  set (w3 := store_tokens t (sent (SentRefresh Reactive refresh) e w2)) in *.
  set (c3 := set_authorization (accessToken t) (mark_retried c1)).
  intros Hrun.
  assert (Hc3 : _retry c3 = true) by (unfold c3; by rewrite set_authorization_retry).
  pose proof (retried_storage c3 w3 fuel result w' Hc3 Hrun) as Hstorage.
  apply session_kept_retried in Hrun; [|exact Hc3].
  destruct (session_kept_store_tokens t (sent (SentRefresh Reactive refresh) e w2)) as [Hk3 _].
  assert (Hk : session_kept w w').
  { eapply session_kept_trans; [exact Hk1|]. eapply session_kept_trans; [exact Hk2|].
    eapply session_kept_trans; [apply (session_kept_sent (SentRefresh Reactive refresh) e)|].
    eapply session_kept_trans; [exact Hk3 | exact Hrun]. }
  destruct Hk as (Hn & Hu & _ & _).
  assert (Hacc3 : holds_token "accessToken" w3) by by apply holds_access_store_tokens.
  assert (Href3 : holds_token "refreshToken" w3).
  { apply holds_refresh_store_tokens, holds_token_sent. by exists refresh. }
  assert (Hheld : ∀ key, holds_token key (request_interceptor c3 w3).2 → holds_token key w').
  { intros key (v & Hv & Hvt). exists v. by rewrite Hstorage. }
  split; [exact Hn|]. split; [|split; [|exact Hu]]; apply Hheld.
  - destruct (request_interceptor_storage c3 w3) as [Hsame | (t' & Ht' & e' & ->)].
    + destruct Hacc3 as (v & Hv & Hvt). exists v. by rewrite Hsame.
    + apply holds_access_store_tokens, Hlater, Ht'.
  - destruct (request_interceptor_storage c3 w3) as [Hsame | (t' & Ht' & e' & ->)].
    + destruct Href3 as (v & Hv & Hvt). exists v. by rewrite Hsame.
    + by apply holds_refresh_store_tokens, holds_token_sent.
Qed.

End ClientRunFacts.

(* ------------------------------------------------------------------ *)
(** ** The authentication context on mount *)

Section AuthMountFacts.
Import AuthProvider AuthMount.
Context `{Jwt.Decoder} `{Json} {E : Type} `{RefreshApi E}.

Lemma call_refreshToken_user (token : string) (m : Mounted E) :
  user (state (call_refreshToken token m).2) = user (state m)
  ∧ isLoading (call_refreshToken token m).2 = isLoading m.
Proof.
  unfold call_refreshToken.
  by destruct (api_refreshToken token (localStorage (state m)) (outside (state m)))
    as [[result storage] e].
Qed.

Lemma store_new_tokens_user (t : NewTokens) (s : State E) :
  user (store_new_tokens t s) = user s.
Proof.
  unfold store_new_tokens. by destruct (newRefreshToken t) as [r|]; [destruct (truthy_string r)|].
Qed.

Lemma refreshTokenIfNeeded_user (now : float) (m : Mounted E) :
  user (state (refreshTokenIfNeeded now m).2) = user (state m)
  ∧ isLoading (refreshTokenIfNeeded now m).2 = isLoading m.
Proof.
  unfold refreshTokenIfNeeded.
  destruct (negb (truthy (getItem "refreshToken" (state m)))); [done|].
  destruct (Jwt.isTokenExpiringSoon now (getItem "accessToken" (state m))); [|done].
  pose proof (call_refreshToken_user (default "" (getItem "refreshToken" (state m))) m) as Hc.
  destruct (call_refreshToken (default "" (getItem "refreshToken" (state m))) m)
    as [[response|error] m1]; cbn [snd] in *; [|done].
  destruct (tokens_of response) as [t|]; [|done].
  cbn. by rewrite store_new_tokens_user.
Qed.

(** X17. [refreshTokenIfNeeded] answers [false] in two cases only: no
    refresh token is stored, or the access token is expiring soon and the
    call to the backend throws. It answers [true], with nothing stored,
    when the backend answers the call without new tokens; and when no
    refresh token is stored or the access token is not expiring soon it
    calls nothing and changes nothing. *)
Theorem refreshTokenIfNeeded_answer (now : float) (m : Mounted E) :
  let refreshToken := getItem "refreshToken" (state m) in
  let expiring := Jwt.isTokenExpiringSoon now (getItem "accessToken" (state m)) in
  let call := call_refreshToken (default "" refreshToken) m in
  ((refreshTokenIfNeeded now m).1 = false
   ↔ truthy refreshToken = false ∨ (expiring = true ∧ ∃ error, call.1 = Rejected error))
  ∧ (∀ response, truthy refreshToken = true → expiring = true →
       call.1 = Fulfilled response → tokens_of response = None →
       refreshTokenIfNeeded now m = (true, call.2))
  ∧ (truthy refreshToken = false ∨ expiring = false →
     (refreshTokenIfNeeded now m).2 = m).
Proof.
  cbv zeta. unfold refreshTokenIfNeeded.
  destruct (truthy (getItem "refreshToken" (state m))) eqn:Hr; cbn [negb].
  2:{ split; [split; auto|]. split; [done|auto]. }
  destruct (Jwt.isTokenExpiringSoon now (getItem "accessToken" (state m))) eqn:Hexp.
  2:{ split; [split; [done|by intros [|[]]]|]. split; [done|auto]. }
  destruct (call_refreshToken (default "" (getItem "refreshToken" (state m))) m)
    as [[response|error] m1]; cbn [fst snd].
  - split; [|split].
    + split; [by destruct (tokens_of response)|]. by intros [|[_ []]].
    + intros response' _ _ [= <-] ->. done.
    + by intros [|].
  - split; [|split].
    + split; [eauto|done].
    + by intros response' _ _.
    + by intros [|].
Qed.

(** X18. A session stored by [setAuthData] is found again after a
    reload: provided the profile survives the round trip through [JSON],
    [loadUser] puts that profile back in memory, the user is
    authenticated and loading is over, however the refresh on load fares. *)
Theorem loadUser_restores_stored_session
    (now : float) (t : AuthTokens) (u : User) (s : State E) :
  JSON_parse (JSON_stringify u) = Some (Some u) →
  truthy_string (JSON_stringify u) = true →
  truthy_string (accessToken t) = true →
  let m := loadUser now (mount (setAuthData t u s)) in
  user (state m) = Some u ∧ isAuthenticated (state m) = true ∧ isLoading m = false.
Proof.
  intros Hround Htext Htoken. cbv zeta. unfold loadUser.
  assert (Huser : getItem "user" (state (mount (setAuthData t u s)))
                  = Some (JSON_stringify u)) by (cbn; by simplify_map_eq).
  assert (Haccess : getItem "accessToken" (state (mount (setAuthData t u s)))
                    = Some (accessToken t)) by (cbn; by simplify_map_eq).
  rewrite Huser, Haccess. cbn [truthy]. rewrite Htext, Htoken. cbn [andb].
  destruct (refreshTokenIfNeeded now (mount (setAuthData t u s))) as [answer m1].
  change (default "" (Some (JSON_stringify u))) with (JSON_stringify u).
  rewrite Hround. done.
Qed.

(** X19. A cached profile that does not parse ends the session on load:
    the three session keys are removed, tokens renewed a moment before
    included, no user is put in memory, and loading is over. *)
Theorem loadUser_clears_unreadable_session (now : float) (m : Mounted E) (text : string) :
  getItem "user" (state m) = Some text → truthy_string text = true →
  truthy (getItem "accessToken" (state m)) = true →
  JSON_parse text = None →
  let m' := loadUser now m in
  getItem "user" (state m') = None
  ∧ getItem "accessToken" (state m') = None
  ∧ getItem "refreshToken" (state m') = None
  ∧ user (state m') = user (state m)
  ∧ isLoading m' = false.
Proof.
  intros Huser Htext Haccess Hparse. cbv zeta. unfold loadUser.
  rewrite Huser, Haccess. cbn [truthy]. rewrite Htext. cbn [andb].
  change (default "" (Some text)) with text. rewrite Hparse.
  destruct (refreshTokenIfNeeded_user now m) as [Hu _].
  destruct (refreshTokenIfNeeded now m) as [answer m1]. cbn [snd] in Hu.
  unfold getItem. cbn. by simplify_map_eq.
Qed.

(** X20. [logout] undoes [setAuthData]: logging out after a login leaves
    storage exactly as logging out without it would, and no user in
    memory; and logging out twice is logging out once. *)
Theorem logout_undoes_setAuthData (t : AuthTokens) (u : User) (s : State E) :
  localStorage (logout (setAuthData t u s)) = localStorage (logout s)
  ∧ user (logout (setAuthData t u s)) = None
  ∧ logout (logout s) = logout s.
Proof.
  split; [|split; [done|]].
  - cbn. apply map_eq. intros key.
    destruct (decide (key = "refreshToken")) as [->|Hr]; [by simplify_map_eq|].
    destruct (decide (key = "accessToken")) as [->|Ha]; [by simplify_map_eq|].
    destruct (decide (key = "user")) as [->|Hu]; by simplify_map_eq.
  - unfold logout, removeItem, setUser, set_storage. cbn. f_equal.
    apply map_eq. intros key.
    destruct (decide (key = "refreshToken")) as [->|Hr]; [by simplify_map_eq|].
    destruct (decide (key = "accessToken")) as [->|Ha]; [by simplify_map_eq|].
    destruct (decide (key = "user")) as [->|Hu]; by simplify_map_eq.
Qed.

End AuthMountFacts.

(* ------------------------------------------------------------------ *)
(** ** The properties above on the worked examples *)

Section MoreWitnesses.
Import Examples MoreExamples.

(** The thread with replies 1 and 2 toggled on: all four replies are
    drawn, in order. *)
Lemma rendered_replies_complete_witness :
  map ReplyView.reply_id (ReplyView.renderReplies opened thread) = [1; 2; 3; 4]%Z
  ∧ length (ReplyView.renderReplies opened thread) = 4.
Proof.
  assert (Hall : ∀ x, x ∈ Replies.all_replies (Replies.replies thread) →
                      ReplyView.has_replies (Replies.replies x) = true →
                      ReplyView.shown_nested opened (Replies.id x) = true).
  { intros x Hx. cbn in Hx. rewrite !elem_of_cons, elem_of_nil in Hx.
    destruct Hx as [-> | [-> | [-> | [-> | []]]]]; intros Hhas; try done. }
  destruct (rendered_replies_complete opened thread
              ltac:(cbn; lia) eq_refl Hall) as [Hmap Hlen].
  split; [exact Hmap | exact Hlen].
Defined.

(** Three clicks, the second outside the bounds: two reports. *)
Lemma clicks_report_the_clicks_inside_witness :
  MapPicker.selected (MapPickerView.run false walk (MapPicker.initial false None None))
  = [(10.3103, 123.9494)%float; (10.3075, 123.9794)%float].
Proof.
  destruct (clicks_report_the_clicks_inside None None walk eq_refl) as [Hsel _].
  exact Hsel.
Defined.

(** A server error leaves [lastRoleCheck] in place. *)
Lemma request_touches_only_session_keys_witness :
  ∃ result w',
    ApiService.request 2 get_businesses failing_server = Some (result, w')
    ∧ ApiService.getItem "lastRoleCheck" w' = Some "1700000000000".
Proof.
  destruct (ApiService.request 2 get_businesses failing_server) as [[result w']|] eqn:Hrun;
    [|by vm_compute in Hrun].
  exists result, w'. split; [reflexivity|].
  rewrite (request_touches_only_session_keys 2 get_businesses failing_server result w' Hrun
             "lastRoleCheck"); [reflexivity|].
  intros Hin. rewrite !elem_of_cons, elem_of_nil in Hin.
  by destruct Hin as [|[|[|[]]]].
Defined.

(** Two 401s in a row: still no navigation. *)
Lemma request_navigates_to_login_at_most_once_witness :
  ∃ result w',
    ApiService.request 2 get_businesses twice_unauthorized = Some (result, w')
    ∧ (ApiService.navigations w' = [] ∨ ApiService.navigations w' = ["/login"]).
Proof.
  destruct (ApiService.request 2 get_businesses twice_unauthorized)
    as [[result w']|] eqn:Hrun; [|by vm_compute in Hrun].
  exists result, w'. split; [reflexivity|].
  exact (request_navigates_to_login_at_most_once 2 get_businesses twice_unauthorized
           result w' Hrun).
Defined.

(** A 500 goes to the caller; the tokens stay. *)
Lemma other_errors_reach_the_caller_witness :
  ∃ w',
    ApiService.request 1 get_businesses failing_server
    = Some (Rejected (AxiosError (Some 500%Z)), w')
    ∧ ApiService.getItem "accessToken" w' = Some "h.eyJleHAiOjQxMDI0NDQ4MDB9.s"
    ∧ ApiService.navigations w' = [].
Proof.
  assert (Hsend :
    (ApiService.send (ApiService.request_interceptor get_businesses failing_server).1
                     (ApiService.request_interceptor get_businesses failing_server).2).1
    = Rejected (AxiosError (Some 500%Z))) by (vm_compute; reflexivity).
  assert (Hstatus : ApiService.response_status (AxiosError (Some 500%Z)) ≠ Some 401%Z)
    by discriminate.
  destruct (other_errors_reach_the_caller get_businesses failing_server
              (AxiosError (Some 500%Z)) Hsend Hstatus 0)
    as (w' & Hrun & _ & Hstore & Hnav).
  exists w'. split; [exact Hrun|]. split; [|exact Hnav].
  unfold ApiService.getItem. rewrite Hstore. reflexivity.
Defined.

(** The replay answered 401 again: the user is still logged in, with
    the renewed pair in store. *)
Lemma refreshed_session_survives_the_replay_witness :
  ∃ result w',
    ApiService.request 2 get_businesses twice_unauthorized = Some (result, w')
    ∧ ApiService.navigations w' = []
    ∧ ClientFrame.holds_token "accessToken" w'
    ∧ ClientFrame.holds_token "refreshToken" w'
    ∧ ApiService.getItem "user" w' = Some "7:CUSTOMER:Ana".
Proof.
  destruct (ApiService.request 2 get_businesses twice_unauthorized)
    as [[result w']|] eqn:Hrun; [|by vm_compute in Hrun].
  exists result, w'. split; [reflexivity|].
  set (c1 := (ApiService.request_interceptor get_businesses twice_unauthorized).1).
  set (w2 := (ApiService.send c1
                (ApiService.request_interceptor get_businesses twice_unauthorized).2).2).
  set (t := {| ApiService.accessToken := "h.eyJleHAiOjQxMDI0NDQ4MDB9.t";
               ApiService.refreshToken := Some "r2" |}).
  set (e := script 1700000000000 [] [unauthorized]).
  set (w3 := ApiService.store_tokens t
               (ApiService.sent (ApiService.SentRefresh ApiService.Reactive "r1") e w2)).
  assert (Hsend :
    (ApiService.send c1 (ApiService.request_interceptor get_businesses twice_unauthorized).2).1
    = Rejected (AxiosError (Some 401%Z))) by (vm_compute; reflexivity).
  assert (Hget : ApiService.getItem "refreshToken" w2 = Some "r1")
    by (vm_compute; reflexivity).
  assert (Hpost : ApiService.post_refresh_token "r1" (ApiService.env w2)
                  = (Fulfilled fresh_reply, e))
    by (vm_compute; reflexivity).
  assert (Hlater : ∀ t',
    ApiService.renewed
      (ApiService.post_refresh_token (default "" (ApiService.getItem "refreshToken" w3))
         (ApiService.env w3)).1 = Some t' →
    truthy_string (ApiService.accessToken t') = true).
  { intros t' Ht'. vm_compute in Ht'. discriminate. }
  destruct (refreshed_session_survives_the_replay get_businesses twice_unauthorized
              (AxiosError (Some 401%Z)) "r1" fresh_reply e t
              0 result w' eq_refl eq_refl Hsend eq_refl Hget eq_refl Hpost eq_refl
              eq_refl Hlater Hrun)
    as (Hnav & Hacc & Href & Huser).
  split; [exact Hnav|]. split; [exact Hacc|]. split; [exact Href|].
  rewrite Huser. reflexivity.
Defined.

(** On the server a 401 is handed back as it came. *)
Lemma server_side_passes_through_witness :
  ApiService.window_defined on_server = false
  ∧ ∃ w', ApiService.request 2 get_businesses on_server = Some (unauthorized, w')
          ∧ ApiService.calls w' = [ApiService.SentRequest get_businesses].
Proof.
  split; [reflexivity|]. eexists. split.
  - exact (server_side_passes_through get_businesses on_server 1 eq_refl).
  - reflexivity.
Defined.

(** Ana's session, stored and found again after a reload, with the
    refresh endpoint out of reach and her token expired. *)
Lemma loadUser_restores_stored_session_witness :
  AuthProvider.user
    (AuthMount.state
       (AuthMount.loadUser 1800000000000
          (AuthMount.mount
             (AuthProvider.setAuthData ana_tokens (profile "7" "CUSTOMER" "Ana") empty_state))))
  = Some (profile "7" "CUSTOMER" "Ana").
Proof.
  assert (Hround : AuthProvider.JSON_parse
                     (AuthProvider.JSON_stringify (profile "7" "CUSTOMER" "Ana"))
                   = Some (Some (profile "7" "CUSTOMER" "Ana"))) by reflexivity.
  assert (Htext : truthy_string (AuthProvider.JSON_stringify (profile "7" "CUSTOMER" "Ana"))
                  = true) by reflexivity.
  destruct (loadUser_restores_stored_session 1800000000000 ana_tokens
              (profile "7" "CUSTOMER" "Ana") empty_state Hround Htext eq_refl)
    as [Huser _].
  exact Huser.
Defined.

(** A truncated profile in storage: the reload logs the user out. *)
Lemma loadUser_clears_unreadable_session_witness :
  AuthProvider.getItem "accessToken"
    (AuthMount.state (AuthMount.loadUser 1700000000000 unreadable)) = None
  ∧ AuthProvider.getItem "user"
      (AuthMount.state (AuthMount.loadUser 1700000000000 unreadable)) = None.
Proof.
  assert (Hstored : AuthProvider.getItem "user" (AuthMount.state unreadable) = Some "{")
    by reflexivity.
  assert (Htoken : truthy (AuthProvider.getItem "accessToken" (AuthMount.state unreadable))
                   = true) by reflexivity.
  assert (Hparse : AuthProvider.JSON_parse "{" = None) by reflexivity.
  destruct (loadUser_clears_unreadable_session 1700000000000 unreadable "{"
              Hstored eq_refl Htoken Hparse) as (Huser & Haccess & _).
  split; [exact Haccess | exact Huser].
Defined.

(** Base URLs: a slash too many, an [/api] already there, nothing set. *)
Example getApiBaseUrl_examples :
  ApiBase.getApiBaseUrl (Some "https://locafy.example/") true = "https://locafy.example/api"
  ∧ ApiBase.getApiBaseUrl (Some "https://locafy.example/api/") true
    = "https://locafy.example/api"
  ∧ ApiBase.getApiBaseUrl None true = "/api"
  ∧ ApiBase.getApiBaseUrl (Some "") false = "http://localhost:7000/api".
Proof. repeat split. Qed.

(** Seven levels of replies: the label counts seven, the page can draw
    six at most, however the thread is toggled. *)
Example deep_thread_is_cut :
  let chain :=
    Replies.mkDiscussion 0 "post" (Some [
     Replies.mkDiscussion 1 "1" (Some [ Replies.mkDiscussion 2 "2" (Some [
     Replies.mkDiscussion 3 "3" (Some [ Replies.mkDiscussion 4 "4" (Some [
     Replies.mkDiscussion 5 "5" (Some [ Replies.mkDiscussion 6 "6" (Some [
     Replies.mkDiscussion 7 "7" None ]) ]) ]) ]) ]) ]) ]) in
  let all_on : gmap Z bool :=
    {[ 1%Z := true; 2%Z := true; 3%Z := true; 4%Z := true; 5%Z := true; 6%Z := true ]} in
  Replies.countTotalReplies (Replies.replies chain) = 7
  ∧ map ReplyView.reply_id (ReplyView.renderReplies all_on chain) = [1; 2; 3; 4; 5; 6]%Z.
Proof. split; vm_compute; reflexivity. Qed.

End MoreWitnesses.

(* ------------------------------------------------------------------ *)
(** ** What the expiry check reads of a token; the session after logout *)

Section JwtSegmentsFacts.
Import Jwt JwtSegments.
Context `{Decoder}.

Lemma split_dotless (s rest : string) :
  dotless s = true →
  split "." (s +:+ "." +:+ rest) = s :: split "." rest.
Proof.
  induction s as [|c s IH]; intros Hs; [reflexivity|].
  cbn [dotless] in Hs. apply andb_true_iff in Hs as [Hc Hs].
  change (String c s +:+ "." +:+ rest) with (String c (s +:+ "." +:+ rest)).
  cbn [split]. apply negb_true_iff in Hc. rewrite Hc, (IH Hs). reflexivity.
Qed.

Lemma segment_token_of (header payload signature : string) :
  dotless header = true → dotless payload = true →
  segment (token_of header payload signature) = payload.
Proof.
  intros Hh Hp. unfold segment, token_of.
  rewrite (split_dotless header _ Hh), (split_dotless payload _ Hp). reflexivity.
Qed.

(** X21. The expiry check reads the payload segment of a token and
    nothing else: two tokens with the same payload are classified alike,
    whatever their headers and signatures. *)
Theorem expiry_depends_on_the_payload_only
    (now : float) (header header' payload signature signature' : string) :
  dotless header = true → dotless header' = true → dotless payload = true →
  getTokenExpiration (token_of header payload signature)
  = getTokenExpiration (token_of header' payload signature')
  ∧ isTokenExpiringSoon now (Some (token_of header payload signature))
    = isTokenExpiringSoon now (Some (token_of header' payload signature')).
Proof.
  intros Hh Hh' Hp.
  assert (Hexp : getTokenExpiration (token_of header payload signature)
                 = getTokenExpiration (token_of header' payload signature')).
  { unfold getTokenExpiration. by rewrite !segment_token_of. }
  split; [exact Hexp|]. unfold isTokenExpiringSoon. rewrite Hexp.
  assert (Htruthy : ∀ h s, truthy_string (token_of h payload s) = true).
  { intros h s. unfold token_of. destruct h; reflexivity. }
  by rewrite !Htruthy.
Qed.

End JwtSegmentsFacts.

Section AfterLogoutFacts.
Import AuthProvider AuthMount.
Context `{Jwt.Decoder} `{Json} {E : Type} `{Api E} `{RefreshApi E}.

(** X22. After [logout] nothing brings the session back or reaches the
    backend: [refreshUser], in either context, returns at once and leaves
    the state as it is, and a reload finds no user, calls nothing and
    writes nothing. *)
Theorem nothing_revives_a_session_after_logout (now : float) (s : State E) :
  refreshUser (logout s) = (Fulfilled (), logout s)
  ∧ AuthProviderPolling.refreshUser (logout s) = (Fulfilled (), logout s)
  ∧ state (loadUser now (mount (logout s))) = logout s
  ∧ refresh_calls (loadUser now (mount (logout s))) = []
  ∧ isLoading (loadUser now (mount (logout s))) = false.
Proof.
  assert (Htoken : getItem "accessToken" (logout s) = None)
    by (unfold getItem; cbn; by simplify_map_eq).
  assert (Huser : getItem "user" (logout s) = None)
    by (unfold getItem; cbn; by simplify_map_eq).
  split; [unfold refreshUser; by rewrite Htoken|].
  split; [unfold AuthProviderPolling.refreshUser; by rewrite Htoken|].
  unfold loadUser.
  change (getItem "user" (state (mount (logout s)))) with (getItem "user" (logout s)).
  rewrite Huser. done.
Qed.

End AfterLogoutFacts.

Section SegmentsWitness.
Import Jwt JwtSegments Examples.

Lemma expiry_depends_on_the_payload_only_witness :
  getTokenExpiration (token_of "h" "p" "s") = getTokenExpiration (token_of "x" "p" "y")
  ∧ isTokenExpiringSoon 0%float (Some (token_of "h" "p" "s"))
    = isTokenExpiringSoon 0%float (Some (token_of "x" "p" "y")).
Proof.
  assert (Hh : dotless "h" = true) by reflexivity.
  assert (Hx : dotless "x" = true) by reflexivity.
  assert (Hp : dotless "p" = true) by reflexivity.
  exact (expiry_depends_on_the_payload_only 0%float "h" "x" "p" "s" "y" Hh Hx Hp).
Defined.

End SegmentsWitness.

(* ------------------------------------------------------------------ *)
(** ** A refused login, through the client *)

Section ClientLoginFacts.
Import ApiService ClientFrame ApiEndpoints.
Context `{Jwt.Decoder} `{AuthProvider.Json} {E : Type} `{Network E} `{Body}.
#[local] Existing Instance client.

Lemma only_tokens_differ_refl (w : World E) : only_tokens_differ w w.
Proof. by repeat split. Qed.

Lemma only_tokens_differ_trans (w1 w2 w3 : World E) :
  only_tokens_differ w1 w2 → only_tokens_differ w2 w3 → only_tokens_differ w1 w3.
Proof.
  intros (Hw & Hp & Hn & Hk) (Hw' & Hp' & Hn' & Hk').
  repeat split; [congruence|congruence|congruence|].
  intros key Ha Hr. by rewrite Hk', Hk.
Qed.

Lemma only_tokens_differ_sent (c : NetCall) (e : E) (w : World E) :
  only_tokens_differ w (sent c e w).
Proof. by repeat split. Qed.

Lemma only_tokens_differ_store_tokens (t : Tokens) (w : World E) :
  only_tokens_differ w (store_tokens t w).
Proof.
  unfold store_tokens, setItem.
  destruct (refreshToken t) as [r|]; [destruct (truthy_string r)|];
    repeat split; intros key Ha Hr; cbn; by simplify_map_eq.
Qed.

Lemma only_tokens_differ_request_interceptor (config : Config) (w : World E) :
  only_tokens_differ w (request_interceptor config w).2.
Proof.
  unfold request_interceptor. destruct (window_defined w); [|apply only_tokens_differ_refl].
  set (token := getItem "accessToken" w). set (refresh := getItem "refreshToken" w).
  assert (Hpro : only_tokens_differ w (proactive_refresh token (default "" refresh) w).2).
  { unfold proactive_refresh, post_refresh.
    destruct (post_refresh_token (default "" refresh) (env w)) as [[reply|err] e];
      [|apply only_tokens_differ_sent].
    destruct (refreshed_tokens reply) as [t|]; [|apply only_tokens_differ_sent].
    eapply only_tokens_differ_trans;
      [apply only_tokens_differ_sent | apply only_tokens_differ_store_tokens]. }
  destruct (truthy token && truthy refresh && Jwt.isTokenExpiringSoon (Date_now (env w)) token).
  - destruct (proactive_refresh token (default "" refresh) w) as [[t|] w1]; exact Hpro.
  - destruct token as [t|]; apply only_tokens_differ_refl.
Qed.

(** A run of the client that ends in a response cleared nothing and
    went nowhere: at most the two tokens were renewed on the way. *)
Lemma fulfilled_only_tokens_differ (fuel : nat) (config : Config) (w : World E)
    (response : Response) (w' : World E) :
  request fuel config w = Some (Fulfilled response, w') → only_tokens_differ w w'.
Proof.
  revert config w. induction fuel as [|fuel IH]; intros config w; [done|].
  cbn [request].
  pose proof (only_tokens_differ_request_interceptor config w) as Hk.
  destruct (request_interceptor config w) as [c1 w1]. cbn [snd] in Hk.
  unfold send. destruct (adapter c1 (env w1)) as [[r|error] e].
  - intros [= _ <-]. eapply only_tokens_differ_trans; [exact Hk|apply only_tokens_differ_sent].
  - set (w2 := sent (SentRequest c1) e w1).
    assert (Hk2 : only_tokens_differ w w2)
      by (eapply only_tokens_differ_trans; [exact Hk|apply only_tokens_differ_sent]).
    unfold response_rejected, refresh_failed.
    destruct (bool_decide (response_status error = Some 401%Z) && negb (_retry c1)); [|done].
    destruct (window_defined w2); [|done].
    destruct (negb (truthy (getItem "refreshToken" w2))); [done|].
    unfold post_refresh.
    destruct (post_refresh_token (default "" (getItem "refreshToken" w2)) (env w2))
      as [[reply|err] e']; [|done].
    destruct (refreshed_tokens reply) as [t|]; [|done].
    intros Hrun%IH. eapply only_tokens_differ_trans; [exact Hk2|].
    eapply only_tokens_differ_trans; [|exact Hrun].
    eapply only_tokens_differ_trans;
      [apply only_tokens_differ_sent | apply only_tokens_differ_store_tokens].
Qed.

(** Without a refresh token in store no refresh can go out, so a run
    that ends in a response wrote nothing at all. *)
Lemma fulfilled_without_refresh_token (fuel : nat) (config : Config) (w : World E)
    (response : Response) (w' : World E) :
  truthy (getItem "refreshToken" w) = false →
  request fuel config w = Some (Fulfilled response, w') →
  localStorage w' = localStorage w.
Proof.
  intros Hno. destruct fuel as [|fuel]; [done|]. cbn [request].
  assert (Hsame : (request_interceptor config w).2 = w).
  { unfold request_interceptor. destruct (window_defined w); [|done].
    rewrite Hno, andb_false_r. cbn. by destruct (getItem "accessToken" w). }
  destruct (request_interceptor config w) as [c1 w1]. cbn [snd] in Hsame. subst w1.
  unfold send. destruct (adapter c1 (env w)) as [[r|error] e].
  - by intros [= _ <-].
  - unfold response_rejected.
    destruct (bool_decide (response_status error = Some 401%Z) && negb (_retry c1)); [|done].
    change (window_defined (sent (SentRequest c1) e w)) with (window_defined w).
    destruct (window_defined w); [|done].
    change (getItem "refreshToken" (sent (SentRequest c1) e w))
      with (getItem "refreshToken" w).
    by rewrite Hno.
Qed.

(** Two levels of calls are enough for every request: [await_request]
    is the run of the client. *)
Lemma await_request_returns (config : Config) (w : World E) :
  request 2 config w = Some (await_request config w).
Proof.
  unfold await_request.
  assert (Hsome : is_Some (request 2 config w)); [|by destruct Hsome as [r ->]].
  cbn [request].
  destruct (request_interceptor_calls config w) as (_ & _ & _ & Hflag).
  destruct (request_interceptor config w) as [c1 w1]. cbn [fst] in Hflag.
  destruct (send c1 w1) as [[r|error] w2]; [done|].
  unfold response_rejected, refresh_failed.
  destruct (bool_decide (response_status error = Some 401%Z) && negb (_retry c1)); [|done].
  destruct (window_defined w2); [|done].
  destruct (negb (truthy (getItem "refreshToken" w2))); [done|].
  destruct (post_refresh Reactive (default "" (getItem "refreshToken" w2)) w2)
    as [[reply|err] w3]; [|done].
  destruct (refreshed_tokens reply) as [t|]; [|done].
  destruct (request_retried (set_authorization (accessToken t) (mark_retried c1))
              (store_tokens t w3)) as (result & w' & sent & Hrun & _);
    [by rewrite set_authorization_retry|].
  exists (result, w'). exact (Hrun 0).
Qed.


End ClientLoginFacts.

Section ClientLoginExamples.
Import Examples MoreExamples.
#[local] Existing Instance ApiEndpoints.client.



End ClientLoginExamples.
